(** * Aura: the NCO classification forms

    A shallow embedding of the two React form pages of the repository:
    the single-page form [NcoSingleForm] and the two-step wizard
    [NcoAdminApp] with its children [NcoFormDetails] and [NcoFormReview].

    Modelling conventions.
    - A JavaScript string is a [string], one character per code unit;
      [s.length] is [String.length s] and [!s] is [falsy s] (true exactly
      for the empty string).
    - The literal [ncoData] is an object used as an ordered map: an
      association list in source order.  [obj[k]] is an own-property
      lookup ([get]), so keys inherited from [Object.prototype] are outside
      the model; [undefined] is [None].  Indexing [undefined] raises a
      [TypeError], so every computation that indexes is in [js].
    - [errors : Record<string,string>] is a [gmap string string].
    - A component instance is its state plus the values its effects saw
      at the previous render.  [settle] renders, runs the effects whose
      dependencies changed, applies the queued updaters in order and
      renders again, until no effect fires.  An exception raised while
      rendering unmounts the tree ([Crashed]). *)

From Stdlib Require Import String List ZArith Lia Bool.
From stdpp Require Import base decidable option list strings gmap fin_maps.

Open Scope string_scope.

(** ** JavaScript values *)

(** Result of a computation that may raise. *)
Inductive js (A : Type) : Type :=
  | Return (a : A)
  | Throw (e : string).
Arguments Return {A} a.
Arguments Throw {A} e.

Definition TypeError : string := "TypeError".

(** [!s] on a string. *)
Definition falsy (s : string) : bool :=
  match s with
  | EmptyString => true
  | String _ _ => false
  end.

(** Outcome of driving a component until it is quiescent. *)
Inductive Run (A : Type) : Type :=
  | Done (a : A)
  | Crashed
  | OutOfFuel.
Arguments Done {A} a.
Arguments Crashed {A}.
Arguments OutOfFuel {A}.

(** Upper bound on nested re-renders before React gives up. *)
Definition renderLimit : nat := 50.

(** ** The taxonomy store (identical literal in both pages) *)

Module Taxonomy.

Definition Obj (V : Type) : Type := list (string * V).

(** [o[k]], own properties only. *)
Fixpoint get {V : Type} (o : Obj V) (k : string) : option V :=
  match o with
  | [] => None
  | (k', v) :: rest => if bool_decide (k' = k) then Some v else get rest k
  end.

(** [Object.keys(o)]. *)
Definition Object_keys {V : Type} (o : Obj V) : list string := map fst o.

Definition ncoData : Obj (Obj (Obj (list string))) :=
  [ ("Division A",
      [ ("Sub-Division A1",
          [ ("Group A1-1", ["Family A1-1-1"; "Family A1-1-2"]);
            ("Group A1-2", ["Family A1-2-1"; "Family A1-2-2"]) ]);
        ("Sub-Division A2",
          [ ("Group A2-1", ["Family A2-1-1"]);
            ("Group A2-2", ["Family A2-2-1"; "Family A2-2-2"]) ]) ]);
    ("Division B",
      [ ("Sub-Division B1",
          [ ("Group B1-1", ["Family B1-1-1"; "Family B1-1-2"]);
            ("Group B1-2", ["Family B1-2-1"]) ]) ]) ].

Definition divisions : list string := Object_keys ncoData.

Arguments ncoData : simpl never.
Arguments divisions : simpl never.

(** The three [useMemo] bodies, as functions of the values they read. *)

Definition subDivisions (division : string) : js (list string) :=
  if falsy division then Return []
  else Return (Object_keys (default [] (get ncoData division))).

Definition groups (division subDivision : string) : js (list string) :=
  if falsy division || falsy subDivision then Return []
  else
    match get ncoData division with
    | None => Throw TypeError
    | Some divisionData =>
        Return (Object_keys (default [] (get divisionData subDivision)))
    end.

Definition families (division subDivision group : string) : js (list string) :=
  if falsy division || falsy subDivision || falsy group then Return []
  else
    match get ncoData division with
    | None => Throw TypeError
    | Some divisionData =>
        match get divisionData subDivision with
        | None => Throw TypeError
        | Some subDivisionData =>
            Return (default [] (get subDivisionData group))
        end
    end.

(** The option lists of one render: the three memos in hook order. *)
Definition options (division subDivision group : string)
  : js (list string * list string * list string) :=
  match subDivisions division with
  | Throw e => Throw e
  | Return sds =>
      match groups division subDivision with
      | Throw e => Throw e
      | Return gs =>
          match families division subDivision group with
          | Throw e => Throw e
          | Return fs => Return (sds, gs, fs)
          end
      end
  end.

(** Referential integrity of a selection path, read off the table. *)
Definition intact (division subDivision group family : string) : Prop :=
  (subDivision = "" ∨
     ∃ dd, get ncoData division = Some dd ∧ subDivision ∈ Object_keys dd) ∧
  (group = "" ∨
     ∃ dd sd, get ncoData division = Some dd ∧ get dd subDivision = Some sd ∧
              group ∈ Object_keys sd) ∧
  (family = "" ∨
     ∃ dd sd fl, get ncoData division = Some dd ∧ get dd subDivision = Some sd ∧
                 get sd group = Some fl ∧ family ∈ fl).

(** The contract of section 4.1 in the specification's own words, for
    comparison with the memos above: the option list at the depth given
    by the length of the selection path; all top-level keys for the
    empty path, the empty sequence when an ancestor is empty or absent,
    the keys or family list reached by descending the table otherwise. *)
Definition childrenOf_spec (path : list string) : list string :=
  match path with
  | [] => Object_keys ncoData
  | [d] =>
      match get ncoData d with
      | Some dd => Object_keys dd
      | None => []
      end
  | [d; s] =>
      match get ncoData d with
      | Some dd =>
          match get dd s with
          | Some sd => Object_keys sd
          | None => []
          end
      | None => []
      end
  | [d; s; g] =>
      match get ncoData d with
      | Some dd =>
          match get dd s with
          | Some sd => default [] (get sd g)
          | None => []
          end
      | None => []
      end
  | _ => []
  end.

End Taxonomy.

(** ** Validation results (the object both pages return) *)

Record ValidationResult : Type := mkValidationResult {
  isValid : bool;
  errors : gmap string string
}.

(** [if (cond) errors[field] = message], as a step on the error object. *)
Definition flag (cond : bool) (field message : string)
    (errs : gmap string string) : gmap string string :=
  if cond then <[field := message]> errs else errs.

(** [{ isValid: Object.keys(errors).length === 0, errors }] *)
Definition result_of (errs : gmap string string) : ValidationResult :=
  mkValidationResult (Nat.eqb (size errs) 0) errs.

(** ** The single-page form *)

Module Single.

Record FormData : Type := mkFormData {
  ncoCode : string;
  title : string;
  description : string;
  division : string;
  subDivision : string;
  group : string;
  family : string;
  confidenceScore : list Z
}.

Definition validateForm (data : FormData) : ValidationResult :=
  let errors : gmap string string := ∅ in
  let errors := flag (falsy (ncoCode data)) "ncoCode" "NCO Code is required" errors in
  let errors := flag (falsy (title data)) "title" "Title is required" errors in
  let errors :=
    flag (falsy (description data) || (String.length (description data) <? 10)%nat)
         "description" "Description must be at least 10 characters" errors in
  let errors := flag (falsy (division data)) "division" "Division is required" errors in
  let errors :=
    flag (falsy (subDivision data)) "subDivision" "Sub-Division is required" errors in
  let errors := flag (falsy (group data)) "group" "Group is required" errors in
  let errors := flag (falsy (family data)) "family" "Family is required" errors in
  result_of errors.

(** The keys [updateField] is called with, and [{ ...prev, [field]: value }]. *)
Inductive Field : Type :=
  | FNcoCode | FTitle | FDescription | FDivision | FSubDivision | FGroup | FFamily.

Definition field_name (f : Field) : string :=
  match f with
  | FNcoCode => "ncoCode"
  | FTitle => "title"
  | FDescription => "description"
  | FDivision => "division"
  | FSubDivision => "subDivision"
  | FGroup => "group"
  | FFamily => "family"
  end.

Definition set_field (f : Field) (value : string) (prev : FormData) : FormData :=
  match f with
  | FNcoCode =>
      mkFormData value (title prev) (description prev) (division prev)
        (subDivision prev) (group prev) (family prev) (confidenceScore prev)
  | FTitle =>
      mkFormData (ncoCode prev) value (description prev) (division prev)
        (subDivision prev) (group prev) (family prev) (confidenceScore prev)
  | FDescription =>
      mkFormData (ncoCode prev) (title prev) value (division prev)
        (subDivision prev) (group prev) (family prev) (confidenceScore prev)
  | FDivision =>
      mkFormData (ncoCode prev) (title prev) (description prev) value
        (subDivision prev) (group prev) (family prev) (confidenceScore prev)
  | FSubDivision =>
      mkFormData (ncoCode prev) (title prev) (description prev) (division prev)
        value (group prev) (family prev) (confidenceScore prev)
  | FGroup =>
      mkFormData (ncoCode prev) (title prev) (description prev) (division prev)
        (subDivision prev) value (family prev) (confidenceScore prev)
  | FFamily =>
      mkFormData (ncoCode prev) (title prev) (description prev) (division prev)
        (subDivision prev) (group prev) value (confidenceScore prev)
  end.

Definition set_confidenceScore (value : list Z) (prev : FormData) : FormData :=
  mkFormData (ncoCode prev) (title prev) (description prev) (division prev)
    (subDivision prev) (group prev) (family prev) value.

(** The updaters queued by the three cascade effects. *)
Definition resetBelowDivision (prev : FormData) : FormData :=
  set_field FFamily "" (set_field FGroup "" (set_field FSubDivision "" prev)).

Definition resetBelowSubDivision (prev : FormData) : FormData :=
  set_field FFamily "" (set_field FGroup "" prev).

Definition resetBelowGroup (prev : FormData) : FormData :=
  set_field FFamily "" prev.

(** Did the dependency [dep] change since the previous render?  On the
    mounting render there is no previous render and every effect runs. *)
Definition changed (last : option FormData) (dep : FormData → string)
    (cur : FormData) : bool :=
  match last with
  | None => true
  | Some l => negb (bool_decide (dep l = dep cur))
  end.

(** Updaters queued after rendering [cur], in hook order. *)
Definition effects (last : option FormData) (cur : FormData)
  : list (FormData → FormData) :=
  (if changed last division cur then [resetBelowDivision] else []) ++
  (if changed last subDivision cur then [resetBelowSubDivision] else []) ++
  (if changed last group cur then [resetBelowGroup] else []).

(** The render body: the three memos over the current record. *)
Definition render (formData : FormData) : js (list string * list string * list string) :=
  Taxonomy.options (division formData) (subDivision formData) (group formData).

Fixpoint settle (fuel : nat) (last : option FormData) (cur : FormData)
  : Run FormData :=
  match render cur with
  | Throw _ => Crashed
  | Return _ =>
      match effects last cur with
      | [] => Done cur
      | queue =>
          match fuel with
          | O => OutOfFuel
          | S fuel' =>
              settle fuel' (Some cur) (fold_left (λ s u, u s) queue cur)
          end
      end
  end.

Arguments settle : simpl never.
Arguments render : simpl never.

(** What the page writes to the outside. *)
Inductive Output : Type :=
  | ConsoleLog (label : string) (data : FormData)
  | Alert (message : string).

(** The component instance between events. *)
Record State : Type := mkState {
  formData : FormData;
  errs : gmap string string;
  outputs : list Output
}.

Definition initialFormData : FormData :=
  mkFormData "" "" "" "" "" "" "" [50%Z].

(** Mounting: first render, then the effects until quiescence. *)
Definition mount : Run State :=
  match settle renderLimit None initialFormData with
  | Done d => Done (mkState d ∅ [])
  | Crashed => Crashed
  | OutOfFuel => OutOfFuel
  end.

(** [if (errors[field]) setErrors(prev => { delete newErrors[field] })] *)
Definition clearError (field : string) (errors : gmap string string)
  : gmap string string :=
  match errors !! field with
  | Some m => if falsy m then errors else delete field errors
  | None => errors
  end.

Definition updateField (f : Field) (value : string) (s : State) : Run State :=
  match settle renderLimit (Some (formData s)) (set_field f value (formData s)) with
  | Done d => Done (mkState d (clearError (field_name f) (errs s)) (outputs s))
  | Crashed => Crashed
  | OutOfFuel => OutOfFuel
  end.

Definition updateConfidenceScore (value : list Z) (s : State) : Run State :=
  match settle renderLimit (Some (formData s))
          (set_confidenceScore value (formData s)) with
  | Done d => Done (mkState d (clearError "confidenceScore" (errs s)) (outputs s))
  | Crashed => Crashed
  | OutOfFuel => OutOfFuel
  end.

Definition handleSubmit (s : State) : State :=
  let validation := validateForm (formData s) in
  if isValid validation then
    mkState (formData s) ∅
      (outputs s ++ [ConsoleLog "Form submitted:" (formData s);
                     Alert "NCO entry saved successfully!"])
  else
    mkState (formData s) (errors validation) (outputs s).

(** User events the rendered page can deliver. *)
Inductive Event : Type :=
  | Change (f : Field) (value : string)
  | Slide (value : Z)
  | Submit.

(** A select offers the placeholder and its option list, and is inert
    while disabled; text inputs accept anything. *)
Definition offered (opts : js (list string)) (value : string) : bool :=
  falsy value ||
  match opts with
  | Return l => bool_decide (value ∈ l)
  | Throw _ => false
  end.

Definition enabled (e : Event) (s : State) : bool :=
  let d := formData s in
  match e with
  | Change FDivision v => offered (Return Taxonomy.divisions) v
  | Change FSubDivision v =>
      negb (falsy (division d)) && offered (Taxonomy.subDivisions (division d)) v
  | Change FGroup v =>
      negb (falsy (subDivision d)) &&
      offered (Taxonomy.groups (division d) (subDivision d)) v
  | Change FFamily v =>
      negb (falsy (group d)) &&
      offered (Taxonomy.families (division d) (subDivision d) (group d)) v
  | Change _ _ => true
  | Slide v => (0 <=? v)%Z && (v <=? 100)%Z
  | Submit => true
  end.

Definition dispatch (e : Event) (s : State) : Run State :=
  match e with
  | Change f v => updateField f v s
  | Slide v => updateConfidenceScore [v] s
  | Submit => Done (handleSubmit s)
  end.

Inductive reachable : State → Prop :=
  | reach_mount s : mount = Done s → reachable s
  | reach_step s e s' :
      reachable s → enabled e s = true → dispatch e s = Done s' → reachable s'.

End Single.


(** ** The two-step wizard *)

Module Wizard.

Record FormData : Type := mkFormData {
  ncoCode : string;
  division : string;
  subDivision : string;
  group : string;
  family : string;
  description : string;
  confidence : list Z
}.

Definition validateNcoDetails (data : FormData) : ValidationResult :=
  let errors : gmap string string := ∅ in
  let errors := flag (falsy (ncoCode data)) "ncoCode" "NCO Code is required" errors in
  let errors := flag (falsy (division data)) "division" "Division is required" errors in
  let errors :=
    flag (falsy (subDivision data)) "subDivision" "Sub-Division is required" errors in
  let errors := flag (falsy (group data)) "group" "Group is required" errors in
  let errors := flag (falsy (family data)) "family" "Family is required" errors in
  result_of errors.

Definition validateNcoReview (data : FormData) : ValidationResult :=
  let errors : gmap string string := ∅ in
  let errors :=
    flag (falsy (description data) || (String.length (description data) <? 10)%nat)
         "description" "Description must be at least 10 characters" errors in
  result_of errors.

(** The object the suggestion service resolves to. *)
Record Suggestion : Type := mkSuggestion {
  success : bool;
  result_description : string
}.

(** The mock service, without its one-second delay. *)
Definition getNcoDescriptionSuggestion
    (division subDivision group family : string) : Suggestion :=
  mkSuggestion true
    ("Professional role in " ++ family ++ " within " ++ group ++
     ". Responsibilities include specialized tasks related to " ++ division ++
     " operations and " ++ subDivision ++ " management.").

Inductive Field : Type :=
  | FNcoCode | FDivision | FSubDivision | FGroup | FFamily | FDescription.

Definition set_field (f : Field) (value : string) (prev : FormData) : FormData :=
  match f with
  | FNcoCode =>
      mkFormData value (division prev) (subDivision prev) (group prev)
        (family prev) (description prev) (confidence prev)
  | FDivision =>
      mkFormData (ncoCode prev) value (subDivision prev) (group prev)
        (family prev) (description prev) (confidence prev)
  | FSubDivision =>
      mkFormData (ncoCode prev) (division prev) value (group prev)
        (family prev) (description prev) (confidence prev)
  | FGroup =>
      mkFormData (ncoCode prev) (division prev) (subDivision prev) value
        (family prev) (description prev) (confidence prev)
  | FFamily =>
      mkFormData (ncoCode prev) (division prev) (subDivision prev) (group prev)
        value (description prev) (confidence prev)
  | FDescription =>
      mkFormData (ncoCode prev) (division prev) (subDivision prev) (group prev)
        (family prev) value (confidence prev)
  end.

Definition set_confidence (value : list Z) (prev : FormData) : FormData :=
  mkFormData (ncoCode prev) (division prev) (subDivision prev) (group prev)
    (family prev) (description prev) value.

(** *** NcoFormDetails *)

(** Each cascade effect of the wizard clears one level only. *)
Definition resetSubDivision (prev : FormData) : FormData := set_field FSubDivision "" prev.
Definition resetGroup (prev : FormData) : FormData := set_field FGroup "" prev.
Definition resetFamily (prev : FormData) : FormData := set_field FFamily "" prev.

Definition changed (last : option FormData) (dep : FormData → string)
    (cur : FormData) : bool :=
  match last with
  | None => true
  | Some l => negb (bool_decide (dep l = dep cur))
  end.

Definition effects (last : option FormData) (cur : FormData)
  : list (FormData → FormData) :=
  (if changed last division cur then [resetSubDivision] else []) ++
  (if changed last subDivision cur then [resetGroup] else []) ++
  (if changed last group cur then [resetFamily] else []).

Definition render (formData : FormData) : js (list string * list string * list string) :=
  Taxonomy.options (division formData) (subDivision formData) (group formData).

Fixpoint settle (fuel : nat) (last : option FormData) (cur : FormData)
  : Run FormData :=
  match render cur with
  | Throw _ => Crashed
  | Return _ =>
      match effects last cur with
      | [] => Done cur
      | queue =>
          match fuel with
          | O => OutOfFuel
          | S fuel' =>
              settle fuel' (Some cur) (fold_left (λ s u, u s) queue cur)
          end
      end
  end.

Arguments settle : simpl never.
Arguments render : simpl never.

(** *** NcoAdminApp and its mounted child *)

Inductive Output : Type :=
  | ConsoleLog (label : string) (data : FormData)
  | Toast (type title message : string).

Record App : Type := mkApp {
  currentStep : Z;
  formData : FormData;
  errs : gmap string string;
  outputs : list Output
}.

Definition defaultFormData : FormData :=
  mkFormData "" "" "" "" "" "" [75%Z].

(** Rendering step 1 mounts a fresh [NcoFormDetails] over [d]. *)
Definition mountDetails (d : FormData) (outs : list Output) : Run App :=
  match settle renderLimit None d with
  | Done d' => Done (mkApp 1 d' ∅ outs)
  | Crashed => Crashed
  | OutOfFuel => OutOfFuel
  end.

Definition mount : Run App := mountDetails defaultFormData [].

(** A [setFormData] while the app is live: the details form, when it is
    the mounted child, re-renders and runs its effects. *)
Definition commit (a : App) (d' : FormData) (outs : list Output) : Run App :=
  if (currentStep a =? 1)%Z then
    match settle renderLimit (Some (formData a)) d' with
    | Done d'' => Done (mkApp (currentStep a) d'' (errs a) outs)
    | Crashed => Crashed
    | OutOfFuel => OutOfFuel
    end
  else Done (mkApp (currentStep a) d' (errs a) outs).

Definition updateField (f : Field) (value : string) (a : App) : Run App :=
  commit a (set_field f value (formData a)) (outputs a).

Definition updateConfidence (value : list Z) (a : App) : Run App :=
  commit a (set_confidence value (formData a)) (outputs a).

Definition handleNext (a : App) : App :=
  mkApp 2 (formData a) ∅ (outputs a).

(** [NcoFormDetails.handleSubmit] *)
Definition handleSubmitDetails (a : App) : App :=
  let validation := validateNcoDetails (formData a) in
  if isValid validation then handleNext a
  else mkApp (currentStep a) (formData a) (errors validation) (outputs a).

Definition handleBack (a : App) : Run App :=
  mountDetails (formData a) (outputs a).

(** [NcoAdminApp.handleSubmit] *)
Definition handleSubmit (outs : list Output) : Run App :=
  mountDetails defaultFormData outs.

Definition handleSubmitReview (a : App) : Run App :=
  let validation := validateNcoReview (formData a) in
  if isValid validation then
    handleSubmit
      (outputs a ++
       [ConsoleLog "Final Data:" (formData a);
        Toast "success" "Submission Successful!"
          ("NCO entry " ++ ncoCode (formData a) ++ " has been submitted.")])
  else Done (mkApp (currentStep a) (formData a) (errors validation) (outputs a)).

(** How the awaited call ends. *)
Inductive Outcome : Type :=
  | Resolved (result : Suggestion)
  | Rejected.

Definition suggestionFailed : Output :=
  Toast "error" "Suggestion Failed"
    "Could not generate a description. Please try again.".

Definition suggestionReady : Output :=
  Toast "success" "Suggestion Ready"
    "An AI-generated description has been populated.".

(** [NcoFormReview.handleSuggestDescription] from the point where the
    awaited call ends, with the way it ended as a parameter; the updater
    it queues applies to the record as it is then. *)
Definition handleSuggestDescription (o : Outcome) (a : App) : Run App :=
  match o with
  | Resolved result =>
      if success result && negb (falsy (result_description result)) then
        commit a (set_field FDescription (result_description result) (formData a))
          (outputs a ++ [suggestionReady])
      else Done (mkApp (currentStep a) (formData a) (errs a)
                   (outputs a ++ [suggestionFailed]))
  | Rejected =>
      Done (mkApp (currentStep a) (formData a) (errs a)
              (outputs a ++ [suggestionFailed]))
  end.

Inductive Event : Type :=
  | Change (f : Field) (value : string)
  | Slide (value : Z)
  | Next
  | Back
  | SubmitReview
  | Settled (o : Outcome).

(** [FormSelect]: disabled when its parent is unset or it has no option. *)
Definition offered (opts : js (list string)) (value : string) : bool :=
  match opts with
  | Return l => negb (bool_decide (l = [])) && (falsy value || bool_decide (value ∈ l))
  | Throw _ => false
  end.

Definition enabled (e : Event) (a : App) : bool :=
  let d := formData a in
  let details := (currentStep a =? 1)%Z in
  match e with
  | Change FNcoCode _ => details
  | Change FDivision v => details && offered (Return Taxonomy.divisions) v
  | Change FSubDivision v =>
      details && negb (falsy (division d)) &&
      offered (Taxonomy.subDivisions (division d)) v
  | Change FGroup v =>
      details && negb (falsy (subDivision d)) &&
      offered (Taxonomy.groups (division d) (subDivision d)) v
  | Change FFamily v =>
      details && negb (falsy (group d)) &&
      offered (Taxonomy.families (division d) (subDivision d) (group d)) v
  | Change FDescription _ => negb details
  | Slide v => negb details && (0 <=? v)%Z && (v <=? 100)%Z
  | Next => details
  | Back => negb details
  | SubmitReview => negb details
  | Settled _ => true
  end.

Definition dispatch (e : Event) (a : App) : Run App :=
  match e with
  | Change f v => updateField f v a
  | Slide v => updateConfidence [v] a
  | Next => Done (handleSubmitDetails a)
  | Back => handleBack a
  | SubmitReview => handleSubmitReview a
  | Settled o => handleSuggestDescription o a
  end.

Inductive reachable : App → Prop :=
  | reach_mount a : mount = Done a → reachable a
  | reach_step a e a' :
      reachable a → enabled e a = true → dispatch e a = Done a' → reachable a'.

End Wizard.

(** The wizard's view of a single-page record (the title has no
    counterpart; the score is the confidence). *)
Definition wizard_view (data : Single.FormData) : Wizard.FormData :=
  Wizard.mkFormData (Single.ncoCode data) (Single.division data)
    (Single.subDivision data) (Single.group data) (Single.family data)
    (Single.description data) (Single.confidenceScore data).

(** ** The application shell (App.tsx) *)

Module App.

(** [currentPage]: which of the two pages is shown. *)
Inductive Page : Type := admin | output.

Definition Page_eqb (p q : Page) : bool :=
  match p, q with
  | admin, admin | output, output => true
  | _, _ => false
  end.

(** The shell with its one mounted child: [NcoAdminApp] when the current
    page is [admin], [NcoSingleForm] otherwise.  The child's state lives in
    the child, so it exists only while the child is mounted. *)
Inductive View : Type :=
  | Admin (a : Wizard.App)
  | Output (s : Single.State).

Definition currentPage (v : View) : Page :=
  match v with
  | Admin _ => admin
  | Output _ => output
  end.

(** Rendering the shell for page [p] mounts that page afresh. *)
Definition show (p : Page) : Run View :=
  match p with
  | admin =>
      match Wizard.mount with
      | Done a => Done (Admin a)
      | Crashed => Crashed
      | OutOfFuel => OutOfFuel
      end
  | output =>
      match Single.mount with
      | Done s => Done (Output s)
      | Crashed => Crashed
      | OutOfFuel => OutOfFuel
      end
  end.

(** [useState('admin')] and the first render. *)
Definition mount : Run View := show admin.

(** The two navigation buttons.  Setting the page it already has leaves
    the shell, and the mounted child with it, as they are; the other page
    is a different component in the same place, so the old child is
    unmounted and the new one mounted. *)
Definition setCurrentPage (p : Page) (v : View) : Run View :=
  if Page_eqb p (currentPage v) then Done v else show p.

Inductive Event : Type :=
  | Navigate (p : Page)
  | InAdmin (e : Wizard.Event)
  | InOutput (e : Single.Event).

Definition enabled (e : Event) (v : View) : bool :=
  match e, v with
  | Navigate _, _ => true
  | InAdmin e', Admin a => Wizard.enabled e' a
  | InOutput e', Output s => Single.enabled e' s
  | _, _ => false
  end.

(** An exception in the child's render has no boundary to stop at: the
    whole shell goes with it. *)
Definition dispatch (e : Event) (v : View) : Run View :=
  match e, v with
  | Navigate p, _ => setCurrentPage p v
  | InAdmin e', Admin a =>
      match Wizard.dispatch e' a with
      | Done a' => Done (Admin a')
      | Crashed => Crashed
      | OutOfFuel => OutOfFuel
      end
  | InOutput e', Output s =>
      match Single.dispatch e' s with
      | Done s' => Done (Output s')
      | Crashed => Crashed
      | OutOfFuel => OutOfFuel
      end
  | _, _ => Done v
  end.

Inductive reachable : View → Prop :=
  | reach_mount v : mount = Done v → reachable v
  | reach_step v e v' :
      reachable v → enabled e v = true → dispatch e v = Done v' → reachable v'.

End App.

(** ** Derived notions used in the statements *)

(** The computation does not raise. *)
Definition returns {A : Type} (r : js A) : Prop := ∃ a, r = Return a.

(** Referential integrity of the record under edit, per page. *)
Definition single_intact (d : Single.FormData) : Prop :=
  Taxonomy.intact (Single.division d) (Single.subDivision d)
    (Single.group d) (Single.family d).

Definition wizard_intact (d : Wizard.FormData) : Prop :=
  Taxonomy.intact (Wizard.division d) (Wizard.subDivision d)
    (Wizard.group d) (Wizard.family d).

(** The record with its three lower levels emptied. *)
Definition wizard_cleared (d : Wizard.FormData) : Wizard.FormData :=
  Wizard.resetFamily (Wizard.resetGroup (Wizard.resetSubDivision d)).

(** The chain the one-level effects rely on: an empty level has only
    empty levels below it. *)
Definition wizard_chained (d : Wizard.FormData) : Prop :=
  (Wizard.subDivision d = "" → Wizard.group d = "") ∧
  (Wizard.group d = "" → Wizard.family d = "").

(** A session: the events delivered one after the other, each through a
    control that is enabled when it is used.  [None] when some event is
    not deliverable; an unmounted page ignores what follows. *)
Fixpoint single_session (es : list Single.Event) (s : Single.State)
  : option (Run Single.State) :=
  match es with
  | [] => Some (Done s)
  | e :: es' =>
      if Single.enabled e s then
        match Single.dispatch e s with
        | Done s' => single_session es' s'
        | r => Some r
        end
      else None
  end.

Fixpoint wizard_session (es : list Wizard.Event) (a : Wizard.App)
  : option (Run Wizard.App) :=
  match es with
  | [] => Some (Done a)
  | e :: es' =>
      if Wizard.enabled e a then
        match Wizard.dispatch e a with
        | Done a' => wizard_session es' a'
        | r => Some r
        end
      else None
  end.

(** The pages right after mounting. *)
Definition single_mounted : Single.State :=
  Single.mkState Single.initialFormData ∅ [].

Definition wizard_mounted : Wizard.App :=
  Wizard.mkApp 1 Wizard.defaultFormData ∅ [].

(** A fully selected path under Division A, as both pages hold it. *)
Definition single_selected : Single.FormData :=
  Single.mkFormData "" "" "" "Division A" "Sub-Division A1" "Group A1-1"
    "Family A1-1-1" [50%Z].

Definition wizard_selected : Wizard.FormData :=
  Wizard.mkFormData "" "Division A" "Sub-Division A1" "Group A1-1"
    "Family A1-1-1" "" [75%Z].

(** The wizard in its Review step over that path, code filled in. *)
Definition wizard_reviewing : Wizard.App :=
  Wizard.mkApp 2
    (Wizard.mkFormData "1111" "Division A" "Sub-Division A1" "Group A1-1"
       "Family A1-1-1" "" [75%Z]) ∅ [].

(** The same with a description already typed. *)
Definition wizard_described : Wizard.App :=
  Wizard.mkApp 2
    (Wizard.mkFormData "1111" "Division A" "Sub-Division A1" "Group A1-1"
       "Family A1-1-1" "Drives a taxi." [75%Z]) ∅ [].

Definition select_path_single : list Single.Event :=
  [Single.Change Single.FDivision "Division A";
   Single.Change Single.FSubDivision "Sub-Division A1";
   Single.Change Single.FGroup "Group A1-1";
   Single.Change Single.FFamily "Family A1-1-1"].

Definition select_path_wizard : list Wizard.Event :=
  [Wizard.Change Wizard.FDivision "Division A";
   Wizard.Change Wizard.FSubDivision "Sub-Division A1";
   Wizard.Change Wizard.FGroup "Group A1-1";
   Wizard.Change Wizard.FFamily "Family A1-1-1"].

(** A complete selection that is a real path of the table. *)
Definition is_path (division subDivision group family : string) : Prop :=
  ∃ dd sd fl,
    Taxonomy.get Taxonomy.ncoData division = Some dd ∧
    Taxonomy.get dd subDivision = Some sd ∧
    Taxonomy.get sd group = Some fl ∧ family ∈ fl.

(** What a submission written to the console must satisfy. *)
Definition single_logged_ok (o : Single.Output) : Prop :=
  match o with
  | Single.ConsoleLog _ d =>
      isValid (Single.validateForm d) = true ∧
      is_path (Single.division d) (Single.subDivision d) (Single.group d)
        (Single.family d)
  | Single.Alert _ => True
  end.

Definition wizard_complete (d : Wizard.FormData) : Prop :=
  isValid (Wizard.validateNcoDetails d) = true ∧
  is_path (Wizard.division d) (Wizard.subDivision d) (Wizard.group d)
    (Wizard.family d).

Definition wizard_logged_ok (o : Wizard.Output) : Prop :=
  match o with
  | Wizard.ConsoleLog _ d =>
      wizard_complete d ∧ isValid (Wizard.validateNcoReview d) = true
  | Wizard.Toast _ _ _ => True
  end.

(** What holds of the wizard between events: the record is intact, the
    step is Details or Review, and the Review step is only ever entered,
    and stayed in, with a complete record; every logged submission was
    complete and passed review validation. *)
Definition wizard_inv (a : Wizard.App) : Prop :=
  wizard_intact (Wizard.formData a) ∧
  (Wizard.currentStep a = 1%Z ∨
   (Wizard.currentStep a = 2%Z ∧ wizard_complete (Wizard.formData a))) ∧
  Forall wizard_logged_ok (Wizard.outputs a).

(** The single page after a submit of the untouched form. *)
Definition single_rejected : Single.State :=
  Single.mkState Single.initialFormData
    (errors (Single.validateForm Single.initialFormData)) [].

(** The single page filled in over the selected path. *)
Definition single_filled : Single.FormData :=
  Single.mkFormData "1111" "Driver" "Drives a taxi." "Division A"
    "Sub-Division A1" "Group A1-1" "Family A1-1-1" [50%Z].

(** The single page after filling that record in and submitting it. *)
Definition single_submitted : Single.State :=
  Single.mkState single_filled ∅
    [Single.ConsoleLog "Form submitted:" single_filled;
     Single.Alert "NCO entry saved successfully!"].

Definition fill_and_submit_single : list Single.Event :=
  [Single.Change Single.FNcoCode "1111";
   Single.Change Single.FTitle "Driver";
   Single.Change Single.FDescription "Drives a taxi.";
   Single.Change Single.FDivision "Division A";
   Single.Change Single.FSubDivision "Sub-Division A1";
   Single.Change Single.FGroup "Group A1-1";
   Single.Change Single.FFamily "Family A1-1-1";
   Single.Submit].

(** The wizard after entering the selected path, describing it and
    submitting. *)
Definition wizard_submitted : Wizard.App :=
  Wizard.mkApp 1 Wizard.defaultFormData ∅
    [Wizard.ConsoleLog "Final Data:" (Wizard.formData wizard_described);
     Wizard.Toast "success" "Submission Successful!"
       "NCO entry 1111 has been submitted."].


Definition fresh_view (p : App.Page) : App.View :=
  match p with
  | App.admin => App.Admin wizard_mounted
  | App.output => App.Output single_mounted
  end.

(** The page-level notion of reachability, for the page the shell shows. *)
Definition page_reachable (v : App.View) : Prop :=
  match v with
  | App.Admin a => Wizard.reachable a
  | App.Output s => Single.reachable s
  end.

(** Every message of an error map is a non-empty string. *)
Definition messages_nonempty (errs : gmap string string) : Prop :=
  ∀ k m, errs !! k = Some m → m ≠ "".

(** Entering a record top-down in the wizard and advancing. *)
Definition enter_path_wizard (code d s g f : string) : list Wizard.Event :=
  [Wizard.Change Wizard.FNcoCode code;
   Wizard.Change Wizard.FDivision d;
   Wizard.Change Wizard.FSubDivision s;
   Wizard.Change Wizard.FGroup g;
   Wizard.Change Wizard.FFamily f;
   Wizard.Next].

Ltac wizard_unfold_resets :=
  unfold wizard_cleared, Wizard.resetFamily, Wizard.resetGroup,
    Wizard.resetSubDivision in *;
  simpl in *.

(** One pass of the loop on a record given field by field: unfold the
    loop once, follow the render, and case on every dependency test. *)
Ltac settle_pass unfold_lemma render effects changed :=
  rewrite unfold_lemma;
  match goal with
  | |- context [render ?c] => destruct (render c); [|discriminate]
  end;
  unfold effects, changed; simpl;
  repeat case_bool_decide; simpl; try discriminate; try congruence.

(** * Properties *)

(** ** Lookups in the taxonomy *)

Lemma falsy_true (s : string) : falsy s = true ↔ s = "".
Proof. destruct s; simpl; split; congruence. Qed.

Lemma falsy_false (s : string) : falsy s = false ↔ s ≠ "".
Proof. destruct s; simpl; split; congruence. Qed.

Section Lookup.
Context {V : Type}.
Implicit Types (o : Taxonomy.Obj V) (k : string).

Lemma get_Some_key o k v :
  Taxonomy.get o k = Some v → k ∈ Taxonomy.Object_keys o.
Proof.
  induction o as [|[k' v'] rest IH]; simpl; [discriminate|].
  case_bool_decide as Hk.
  - intros _. subst k'. apply list_elem_of_here.
  - intros H. apply list_elem_of_further, IH, H.
Qed.

Lemma key_get_Some o k :
  k ∈ Taxonomy.Object_keys o → ∃ v, Taxonomy.get o k = Some v.
Proof.
  induction o as [|[k' v'] rest IH]; simpl.
  - intros H. by apply elem_of_nil in H.
  - intros H. case_bool_decide as Hk; [eauto|].
    apply elem_of_cons in H as [H|H]; [congruence|]. by apply IH.
Qed.

End Lookup.

(** No level of the table has the empty string as a key. *)
Lemma ncoData_division_nonempty dd :
  Taxonomy.get Taxonomy.ncoData "" = Some dd → False.
Proof. vm_compute. discriminate. Qed.

Lemma ncoData_cases d dd :
  Taxonomy.get Taxonomy.ncoData d = Some dd →
  (d = "Division A" ∧ Taxonomy.get Taxonomy.ncoData "Division A" = Some dd) ∨
  (d = "Division B" ∧ Taxonomy.get Taxonomy.ncoData "Division B" = Some dd).
Proof.
  intros H.
  destruct (decide (d = "Division A")) as [->|HA]; [left; done|].
  destruct (decide (d = "Division B")) as [->|HB]; [right; done|].
  exfalso. revert H. unfold Taxonomy.ncoData. simpl.
  rewrite !bool_decide_eq_false_2 by congruence. discriminate.
Qed.

Lemma ncoData_subDivision_nonempty d dd sd :
  Taxonomy.get Taxonomy.ncoData d = Some dd → Taxonomy.get dd "" = Some sd → False.
Proof.
  intros H. apply ncoData_cases in H as [[_ H]|[_ H]];
    vm_compute in H; injection H as <-; vm_compute; discriminate.
Qed.

Lemma ncoData_group_nonempty d dd s sd fl :
  Taxonomy.get Taxonomy.ncoData d = Some dd → Taxonomy.get dd s = Some sd →
  Taxonomy.get sd "" = Some fl → False.
Proof.
  intros H. apply ncoData_cases in H as [[_ H]|[_ H]];
    vm_compute in H; injection H as <-; simpl;
    repeat case_bool_decide; intros Hs; try discriminate;
    injection Hs as <-; vm_compute; discriminate.
Qed.

(** ** The option-list memos *)

Lemma empty_string_cases (s : string) : s = "" ∨ falsy s = false.
Proof. destruct s; auto. Qed.

Lemma subDivisions_returns d : returns (Taxonomy.subDivisions d).
Proof. unfold Taxonomy.subDivisions. destruct (falsy d); eexists; reflexivity. Qed.

Lemma groups_throws d s e :
  Taxonomy.groups d s = Throw e ↔
  d ≠ "" ∧ s ≠ "" ∧ Taxonomy.get Taxonomy.ncoData d = None ∧ e = TypeError.
Proof.
  unfold Taxonomy.groups.
  destruct (empty_string_cases d) as [->|Hd].
  { cbn [orb falsy]. split; [discriminate|]. intros (H & _). congruence. }
  destruct (empty_string_cases s) as [->|Hs].
  { rewrite Hd. cbn [orb falsy]. split; [discriminate|]. intros (_ & H & _). congruence. }
  rewrite Hd, Hs. cbn [orb falsy]. apply falsy_false in Hd, Hs.
  destruct (Taxonomy.get Taxonomy.ncoData d).
  - split; [discriminate|]. intros (_ & _ & H & _). discriminate.
  - split; [intros [= <-]; auto|]. intros (_ & _ & _ & ->). reflexivity.
Qed.

Lemma families_throws d s g e :
  Taxonomy.families d s g = Throw e ↔
  d ≠ "" ∧ s ≠ "" ∧ g ≠ "" ∧ e = TypeError ∧
  match Taxonomy.get Taxonomy.ncoData d with
  | None => True
  | Some dd => Taxonomy.get dd s = None
  end.
Proof.
  unfold Taxonomy.families.
  destruct (empty_string_cases d) as [->|Hd].
  { cbn [orb falsy]. split; [discriminate|]. intros (H & _). congruence. }
  destruct (empty_string_cases s) as [->|Hs].
  { rewrite Hd. cbn [orb falsy]. split; [discriminate|]. intros (_ & H & _). congruence. }
  destruct (empty_string_cases g) as [->|Hg].
  { rewrite Hd, Hs. cbn [orb falsy]. split; [discriminate|]. intros (_ & _ & H & _). congruence. }
  rewrite Hd, Hs, Hg. cbn [orb falsy]. apply falsy_false in Hd, Hs, Hg.
  destruct (Taxonomy.get Taxonomy.ncoData d) as [dd|].
  - destruct (Taxonomy.get dd s).
    + split; [discriminate|]. intros (_ & _ & _ & _ & H). discriminate.
    + split; [intros [= <-]; auto 6|]. intros (_ & _ & _ & -> & _). reflexivity.
  - split; [intros [= <-]; auto 6|]. intros (_ & _ & _ & -> & _). reflexivity.
Qed.

Lemma returns_or_throws {A : Type} (r : js A) : returns r ∨ ∃ e, r = Throw e.
Proof. destruct r; [left|right]; eexists; reflexivity. Qed.

Lemma options_returns d s g :
  returns (Taxonomy.options d s g) ↔
  returns (Taxonomy.groups d s) ∧ returns (Taxonomy.families d s g).
Proof.
  unfold Taxonomy.options.
  destruct (subDivisions_returns d) as [sds ->].
  destruct (Taxonomy.groups d s) as [gs|e].
  - destruct (Taxonomy.families d s g) as [fs|e'].
    + split; [intros _; split|intros _]; eexists; reflexivity.
    + split; [intros [? ?]; discriminate|intros [_ [? ?]]; discriminate].
  - split; [intros [? ?]; discriminate|intros [[? ?] _]; discriminate].
Qed.

Lemma options_subDivision_empty d g : returns (Taxonomy.options d "" g).
Proof.
  apply options_returns. unfold Taxonomy.groups, Taxonomy.families. cbn [orb falsy].
  rewrite orb_true_r. cbn [orb falsy]. split; eexists; reflexivity.
Qed.

Lemma options_group_empty d s g :
  returns (Taxonomy.options d s g) → returns (Taxonomy.options d s "").
Proof.
  rewrite !options_returns. intros [Hg _]. split; [done|].
  unfold Taxonomy.families. cbn [orb falsy]. rewrite orb_true_r. eexists; reflexivity.
Qed.

(** Members of an option list are keys found by descending the table. *)
Lemma subDivisions_member d l v :
  Taxonomy.subDivisions d = Return l → v ∈ l →
  ∃ dd, Taxonomy.get Taxonomy.ncoData d = Some dd ∧ v ∈ Taxonomy.Object_keys dd.
Proof.
  unfold Taxonomy.subDivisions. destruct (falsy d).
  - intros [= <-] H. by apply elem_of_nil in H.
  - destruct (Taxonomy.get Taxonomy.ncoData d) as [dd|]; cbn; intros [= <-] H.
    + exists dd. split; [reflexivity|exact H].
    + by apply elem_of_nil in H.
Qed.

Lemma groups_member d s l v :
  Taxonomy.groups d s = Return l → v ∈ l →
  ∃ dd sd, Taxonomy.get Taxonomy.ncoData d = Some dd ∧
           Taxonomy.get dd s = Some sd ∧ v ∈ Taxonomy.Object_keys sd.
Proof.
  unfold Taxonomy.groups. destruct (falsy d || falsy s).
  - intros [= <-] H. by apply elem_of_nil in H.
  - destruct (Taxonomy.get Taxonomy.ncoData d) as [dd|]; [|discriminate].
    destruct (Taxonomy.get dd s) as [sd|] eqn:Es; cbn; intros [= <-] H.
    + exists dd, sd. split; [reflexivity|]. split; [exact Es|exact H].
    + by apply elem_of_nil in H.
Qed.

Lemma families_member d s g l v :
  Taxonomy.families d s g = Return l → v ∈ l →
  ∃ dd sd fl, Taxonomy.get Taxonomy.ncoData d = Some dd ∧
              Taxonomy.get dd s = Some sd ∧ Taxonomy.get sd g = Some fl ∧ v ∈ fl.
Proof.
  unfold Taxonomy.families. destruct (falsy d || falsy s || falsy g).
  - intros [= <-] H. by apply elem_of_nil in H.
  - destruct (Taxonomy.get Taxonomy.ncoData d) as [dd|]; [|discriminate].
    destruct (Taxonomy.get dd s) as [sd|] eqn:Es; [|discriminate].
    destruct (Taxonomy.get sd g) as [fl|] eqn:Eg; cbn; intros [= <-] H.
    + exists dd, sd, fl. split; [reflexivity|]. split; [exact Es|].
      split; [exact Eg|exact H].
    + by apply elem_of_nil in H.
Qed.

(** ** Referential integrity *)

Lemma intact_cleared d : Taxonomy.intact d "" "" "".
Proof. unfold Taxonomy.intact. auto. Qed.

Lemma intact_subDivision_empty d g f :
  Taxonomy.intact d "" g f → g = "" ∧ f = "".
Proof.
  intros (_ & Hg & Hf).
  assert (g = "") as ->.
  { destruct Hg as [?|(dd & sd & Hd & Hs & _)]; [done|].
    destruct (ncoData_subDivision_nonempty _ _ _ Hd Hs). }
  split; [done|].
  destruct Hf as [?|(dd & sd & fl & Hd & Hs & _)]; [done|].
  destruct (ncoData_subDivision_nonempty _ _ _ Hd Hs).
Qed.

Lemma intact_group_empty d s f : Taxonomy.intact d s "" f → f = "".
Proof.
  intros (_ & _ & [?|(dd & sd & fl & Hd & Hs & Hg & _)]); [done|].
  destruct (ncoData_group_nonempty _ _ _ _ _ Hd Hs Hg).
Qed.

(** The memos find every object they index as soon as the sub-division
    is empty or a key under the division. *)
Lemma options_returns_under d s g :
  (s = "" ∨ ∃ dd, Taxonomy.get Taxonomy.ncoData d = Some dd ∧
                  s ∈ Taxonomy.Object_keys dd) →
  returns (Taxonomy.options d s g).
Proof.
  intros [->|(dd & Hdd & Hin)]; [apply options_subDivision_empty|].
  apply options_returns. split.
  - destruct (returns_or_throws (Taxonomy.groups d s)) as [|[e He]]; [done|].
    apply groups_throws in He as (_ & _ & Hd & _). congruence.
  - destruct (returns_or_throws (Taxonomy.families d s g)) as [|[e He]]; [done|].
    apply families_throws in He as (_ & _ & _ & _ & Hd).
    rewrite Hdd in Hd. apply key_get_Some in Hin as [sd Hsd]. congruence.
Qed.

(** In an intact record every memo of the render is defined. *)
Lemma intact_options d s g f :
  Taxonomy.intact d s g f → returns (Taxonomy.options d s g).
Proof. intros (Hs & _). by apply options_returns_under. Qed.

(** ** The render loop of the single-page form *)

Lemma single_settle_unfold fuel last cur :
  Single.settle fuel last cur =
  match Single.render cur with
  | Throw _ => Crashed
  | Return _ =>
      match Single.effects last cur with
      | [] => Done cur
      | queue =>
          match fuel with
          | O => OutOfFuel
          | S fuel' =>
              Single.settle fuel' (Some cur) (fold_left (λ s u, u s) queue cur)
          end
      end
  end.
Proof. destruct fuel; reflexivity. Qed.

Lemma single_settle_throw fuel last cur d :
  Single.settle fuel last cur = Done d → returns (Single.render cur).
Proof.
  rewrite single_settle_unfold.
  destruct (Single.render cur) as [x|e]; [eexists; reflexivity|discriminate].
Qed.

Lemma single_settle_crash fuel last cur e :
  Single.render cur = Throw e → Single.settle fuel last cur = Crashed.
Proof. intros H. rewrite single_settle_unfold, H. reflexivity. Qed.

(** Same dependencies as at the previous render: no effect runs. *)
Lemma single_settle_same_deps fuel d d' :
  Single.division d' = Single.division d →
  Single.subDivision d' = Single.subDivision d →
  Single.group d' = Single.group d →
  returns (Single.render d') →
  Single.settle fuel (Some d) d' = Done d'.
Proof.
  intros Hd Hs Hg [x Hx]. rewrite single_settle_unfold, Hx.
  unfold Single.effects, Single.changed.
  rewrite !bool_decide_eq_true_2 by done. reflexivity.
Qed.

Lemma single_render_below_division d :
  returns (Single.render (Single.resetBelowDivision d)).
Proof. exact (options_subDivision_empty _ _). Qed.

Lemma single_render_below_subDivision d :
  returns (Single.render d) → returns (Single.render (Single.resetBelowSubDivision d)).
Proof. exact (options_group_empty _ _ _). Qed.

(** Once group and family are empty, whatever lower effects still run
    leave the record as it is, and the next render is quiet. *)
Lemma single_settle_after_reset fuel last d :
  Single.division last = Single.division d →
  Single.group d = "" →
  Single.family d = "" →
  returns (Single.render d) →
  Single.settle (S fuel) (Some last) d = Done d.
Proof.
  intros Hd Hg Hf Hr. pose proof Hr as [x Hx].
  rewrite single_settle_unfold, Hx.
  assert (Single.resetBelowSubDivision d = d) as H2
    by (destruct d; simpl in *; subst; reflexivity).
  assert (Single.resetBelowGroup d = d) as H3
    by (destruct d; simpl in *; subst; reflexivity).
  unfold Single.effects, Single.changed.
  rewrite (bool_decide_eq_true_2 _ Hd).
  repeat case_bool_decide; cbn [negb app fold_left]; rewrite ?H2, ?H3;
    try reflexivity; apply single_settle_same_deps; auto.
Qed.

Lemma single_change_division fuel d v :
  v ≠ Single.division d →
  returns (Single.render (Single.set_field Single.FDivision v d)) →
  Single.settle (S (S fuel)) (Some d) (Single.set_field Single.FDivision v d) =
  Done (Single.resetBelowDivision (Single.set_field Single.FDivision v d)).
Proof.
  intros Hv [x Hx]. rewrite single_settle_unfold, Hx.
  unfold Single.effects, Single.changed. cbn [Single.set_field Single.division
    Single.subDivision Single.group].
  rewrite (bool_decide_eq_false_2 (Single.division d = v)) by congruence.
  rewrite !bool_decide_eq_true_2 by done. cbn [negb app fold_left].
  apply single_settle_after_reset; try reflexivity.
  apply single_render_below_division.
Qed.

Lemma single_change_subDivision fuel d v :
  v ≠ Single.subDivision d →
  returns (Single.render (Single.set_field Single.FSubDivision v d)) →
  Single.settle (S (S fuel)) (Some d) (Single.set_field Single.FSubDivision v d) =
  Done (Single.resetBelowSubDivision (Single.set_field Single.FSubDivision v d)).
Proof.
  intros Hv [x Hx]. rewrite single_settle_unfold, Hx.
  unfold Single.effects, Single.changed. cbn [Single.set_field Single.division
    Single.subDivision Single.group].
  rewrite (bool_decide_eq_false_2 (Single.subDivision d = v)) by congruence.
  rewrite !bool_decide_eq_true_2 by done. cbn [negb app fold_left].
  apply single_settle_after_reset; try reflexivity.
  apply single_render_below_subDivision. eexists; exact Hx.
Qed.

Lemma single_change_group fuel d v :
  v ≠ Single.group d →
  returns (Single.render (Single.set_field Single.FGroup v d)) →
  Single.settle (S fuel) (Some d) (Single.set_field Single.FGroup v d) =
  Done (Single.resetBelowGroup (Single.set_field Single.FGroup v d)).
Proof.
  intros Hv [x Hx]. rewrite single_settle_unfold, Hx.
  unfold Single.effects, Single.changed. cbn [Single.set_field Single.division
    Single.subDivision Single.group].
  rewrite (bool_decide_eq_false_2 (Single.group d = v)) by congruence.
  rewrite !bool_decide_eq_true_2 by done. cbn [negb app fold_left].
  apply single_settle_same_deps; try reflexivity.
  eexists; exact Hx.
Qed.

Lemma single_set_field_same f d v :
  v = match f with
      | Single.FNcoCode => Single.ncoCode d
      | Single.FTitle => Single.title d
      | Single.FDescription => Single.description d
      | Single.FDivision => Single.division d
      | Single.FSubDivision => Single.subDivision d
      | Single.FGroup => Single.group d
      | Single.FFamily => Single.family d
      end →
  Single.set_field f v d = d.
Proof. intros ->. destruct d, f; reflexivity. Qed.

(** Mounting runs all three effects once. *)
Lemma single_settle_mount fuel d :
  returns (Single.render d) →
  Single.settle (S (S fuel)) None d = Done (Single.resetBelowDivision d).
Proof.
  intros [x Hx]. rewrite single_settle_unfold, Hx.
  unfold Single.effects, Single.changed. cbn [app fold_left].
  change (Single.resetBelowGroup
            (Single.resetBelowSubDivision (Single.resetBelowDivision d)))
    with (Single.resetBelowDivision d).
  apply single_settle_after_reset; try reflexivity.
  apply single_render_below_division.
Qed.

(** The loop always stops well within the limit, crashed or quiescent. *)
Lemma single_settle_total fuel last cur :
  Single.settle (S (S fuel)) last cur ≠ OutOfFuel.
Proof.
  destruct cur as [c t de dv sd g f cs].
  destruct last as [[c' t' de' dv' sd' g' f' cs']|];
    settle_pass single_settle_unfold Single.render Single.effects Single.changed;
    settle_pass single_settle_unfold Single.render Single.effects Single.changed;
    settle_pass single_settle_unfold Single.render Single.effects Single.changed.
Qed.

(** ** Referential integrity of the single-page record *)

Lemma single_offered opts v :
  Single.offered opts v = true → v = "" ∨ ∃ l, opts = Return l ∧ v ∈ l.
Proof.
  unfold Single.offered. intros H. apply orb_true_iff in H as [H|H].
  - left. by apply falsy_true.
  - right. destruct opts as [l|e]; [|discriminate].
    exists l. split; [reflexivity|]. by apply bool_decide_eq_true in H.
Qed.

Lemma single_intact_render d : single_intact d → returns (Single.render d).
Proof. apply intact_options. Qed.

(** One field update with its cascade, from an intact record, through a
    control the page offers. *)
Lemma single_update_intact fuel f v d0 d :
  single_intact d0 →
  Single.enabled (Single.Change f v) (Single.mkState d0 ∅ []) = true →
  Single.settle (S (S fuel)) (Some d0) (Single.set_field f v d0) = Done d →
  single_intact d.
Proof.
  intros Hi He Hs. pose proof (single_settle_throw _ _ _ _ Hs) as Hr.
  destruct f.
  - rewrite single_settle_same_deps in Hs by (try reflexivity; exact Hr).
    injection Hs as <-. exact Hi.
  - rewrite single_settle_same_deps in Hs by (try reflexivity; exact Hr).
    injection Hs as <-. exact Hi.
  - rewrite single_settle_same_deps in Hs by (try reflexivity; exact Hr).
    injection Hs as <-. exact Hi.
  - destruct (decide (v = Single.division d0)) as [Hv|Hv].
    + rewrite single_set_field_same in Hs by exact Hv.
      rewrite single_settle_same_deps in Hs
        by (try reflexivity; by apply single_intact_render).
      injection Hs as <-. exact Hi.
    + rewrite single_change_division in Hs by assumption.
      injection Hs as <-. apply intact_cleared.
  - destruct (decide (v = Single.subDivision d0)) as [Hv|Hv].
    + rewrite single_set_field_same in Hs by exact Hv.
      rewrite single_settle_same_deps in Hs
        by (try reflexivity; by apply single_intact_render).
      injection Hs as <-. exact Hi.
    + rewrite single_change_subDivision in Hs by assumption.
      injection Hs as <-. unfold single_intact, Taxonomy.intact. simpl.
      split; [|auto].
      simpl in He. apply andb_true_iff in He as [_ He].
      apply single_offered in He as [->|(l & Hl & Hin)]; [auto|].
      right. eapply subDivisions_member; eassumption.
  - destruct (decide (v = Single.group d0)) as [Hv|Hv].
    + rewrite single_set_field_same in Hs by exact Hv.
      rewrite single_settle_same_deps in Hs
        by (try reflexivity; by apply single_intact_render).
      injection Hs as <-. exact Hi.
    + rewrite single_change_group in Hs by assumption.
      injection Hs as <-. unfold single_intact, Taxonomy.intact. simpl.
      split; [apply Hi|]. split; [|auto].
      simpl in He. apply andb_true_iff in He as [_ He].
      apply single_offered in He as [->|(l & Hl & Hin)]; [auto|].
      right. eapply groups_member; eassumption.
  - rewrite single_settle_same_deps in Hs by (try reflexivity; exact Hr).
    injection Hs as <-. unfold single_intact, Taxonomy.intact. simpl.
    split; [apply Hi|]. split; [apply Hi|].
    simpl in He. apply andb_true_iff in He as [_ He].
    apply single_offered in He as [->|(l & Hl & Hin)]; [auto|].
    right. eapply families_member; eassumption.
Qed.

Lemma single_dispatch_intact e s s' :
  single_intact (Single.formData s) →
  Single.enabled e s = true →
  Single.dispatch e s = Done s' →
  single_intact (Single.formData s').
Proof.
  intros Hi He Hd. destruct e as [f v|v|]; simpl in Hd.
  - unfold Single.updateField in Hd. change renderLimit with (S (S 48)) in Hd.
    destruct (Single.settle _ _ _) as [d| |] eqn:Hs; [|discriminate..].
    injection Hd as <-. simpl.
    eapply single_update_intact; [exact Hi| |exact Hs].
    destruct s; exact He.
  - unfold Single.updateConfidenceScore in Hd.
    destruct (Single.settle _ _ _) as [d| |] eqn:Hs; [|discriminate..].
    injection Hd as <-. simpl.
    pose proof (single_settle_throw _ _ _ _ Hs) as Hr.
    rewrite single_settle_same_deps in Hs by (try reflexivity; exact Hr).
    injection Hs as <-. exact Hi.
  - injection Hd as <-. unfold Single.handleSubmit.
    destruct (isValid _); exact Hi.
Qed.

Lemma single_mount_state :
  Single.mount = Done (Single.mkState Single.initialFormData ∅ []).
Proof. vm_compute. reflexivity. Qed.

Lemma single_reachable_intact s :
  Single.reachable s → single_intact (Single.formData s).
Proof.
  induction 1 as [s Hm|s e s' _ IH He Hd].
  - rewrite single_mount_state in Hm. injection Hm as <-. apply intact_cleared.
  - eapply single_dispatch_intact; eassumption.
Qed.

(** ** The render loop of the wizard's details form *)

Lemma wizard_settle_unfold fuel last cur :
  Wizard.settle fuel last cur =
  match Wizard.render cur with
  | Throw _ => Crashed
  | Return _ =>
      match Wizard.effects last cur with
      | [] => Done cur
      | queue =>
          match fuel with
          | O => OutOfFuel
          | S fuel' =>
              Wizard.settle fuel' (Some cur) (fold_left (λ s u, u s) queue cur)
          end
      end
  end.
Proof. destruct fuel; reflexivity. Qed.

Lemma wizard_settle_throw fuel last cur d :
  Wizard.settle fuel last cur = Done d → returns (Wizard.render cur).
Proof.
  rewrite wizard_settle_unfold.
  destruct (Wizard.render cur) as [x|e]; [eexists; reflexivity|discriminate].
Qed.

Lemma wizard_settle_crash fuel last cur e :
  Wizard.render cur = Throw e → Wizard.settle fuel last cur = Crashed.
Proof. intros H. rewrite wizard_settle_unfold, H. reflexivity. Qed.

Lemma wizard_settle_same_deps fuel d d' :
  Wizard.division d' = Wizard.division d →
  Wizard.subDivision d' = Wizard.subDivision d →
  Wizard.group d' = Wizard.group d →
  returns (Wizard.render d') →
  Wizard.settle fuel (Some d) d' = Done d'.
Proof.
  intros Hd Hs Hg [x Hx]. rewrite wizard_settle_unfold, Hx.
  unfold Wizard.effects, Wizard.changed.
  rewrite !bool_decide_eq_true_2 by done. reflexivity.
Qed.

Lemma wizard_settle_total fuel last cur :
  Wizard.settle (S (S (S fuel))) last cur ≠ OutOfFuel.
Proof.
  destruct cur as [c dv sd g f de cs].
  destruct last as [[c' dv' sd' g' f' de' cs']|];
    settle_pass wizard_settle_unfold Wizard.render Wizard.effects Wizard.changed;
    settle_pass wizard_settle_unfold Wizard.render Wizard.effects Wizard.changed;
    settle_pass wizard_settle_unfold Wizard.render Wizard.effects Wizard.changed;
    settle_pass wizard_settle_unfold Wizard.render Wizard.effects Wizard.changed.
Qed.

Lemma wizard_render_subDivision_empty d :
  Wizard.subDivision d = "" → returns (Wizard.render d).
Proof.
  intros H. unfold Wizard.render. rewrite H. apply options_subDivision_empty.
Qed.

Lemma wizard_render_group_empty d :
  returns (Wizard.render d) → returns (Wizard.render (Wizard.resetGroup d)).
Proof. exact (options_group_empty _ _ _). Qed.

(** Family empty and the lower dependencies about to be re-checked: the
    remaining passes change nothing once group is empty too. *)
Lemma wizard_settle_after_reset fuel last d :
  Wizard.division last = Wizard.division d →
  Wizard.subDivision d = "" →
  Wizard.group d = "" →
  Wizard.family d = "" →
  Wizard.settle (S fuel) (Some last) d = Done d.
Proof.
  intros Hd Hs Hg Hf.
  destruct (wizard_render_subDivision_empty d Hs) as [x Hx].
  rewrite wizard_settle_unfold, Hx.
  assert (Wizard.resetGroup d = d) as H2
    by (destruct d; simpl in *; subst; reflexivity).
  assert (Wizard.resetFamily d = d) as H3
    by (destruct d; simpl in *; subst; reflexivity).
  unfold Wizard.effects, Wizard.changed.
  rewrite (bool_decide_eq_true_2 _ Hd).
  repeat case_bool_decide; cbn [negb app fold_left]; rewrite ?H2, ?H3;
    try reflexivity; apply wizard_settle_same_deps;
    try reflexivity; eexists; exact Hx.
Qed.

(** Mounting the details form runs all three effects once. *)
Lemma wizard_settle_mount fuel d :
  returns (Wizard.render d) →
  Wizard.settle (S (S fuel)) None d = Done (wizard_cleared d).
Proof.
  intros [x Hx]. rewrite wizard_settle_unfold, Hx.
  unfold Wizard.effects, Wizard.changed. cbn [app fold_left].
  apply wizard_settle_after_reset; reflexivity.
Qed.

Lemma wizard_change_group fuel d v :
  v ≠ Wizard.group d →
  returns (Wizard.render (Wizard.set_field Wizard.FGroup v d)) →
  Wizard.settle (S fuel) (Some d) (Wizard.set_field Wizard.FGroup v d) =
  Done (Wizard.resetFamily (Wizard.set_field Wizard.FGroup v d)).
Proof.
  intros Hv [x Hx]. rewrite wizard_settle_unfold, Hx.
  unfold Wizard.effects, Wizard.changed. cbn [Wizard.set_field Wizard.division
    Wizard.subDivision Wizard.group].
  rewrite (bool_decide_eq_false_2 (Wizard.group d = v)) by congruence.
  rewrite !bool_decide_eq_true_2 by done. cbn [negb app fold_left].
  apply wizard_settle_same_deps; try reflexivity.
  eexists; exact Hx.
Qed.

Lemma wizard_subDivision_changed fuel d d' :
  Wizard.division d' = Wizard.division d →
  Wizard.subDivision d' ≠ Wizard.subDivision d →
  Wizard.group d' = Wizard.group d →
  (Wizard.group d' = "" → Wizard.family d' = "") →
  returns (Wizard.render d') →
  Wizard.settle (S (S fuel)) (Some d) d' =
  Done (Wizard.resetFamily (Wizard.resetGroup d')).
Proof.
  intros Hd Hv Hg Hc Hr. pose proof Hr as [x Hx].
  rewrite wizard_settle_unfold, Hx.
  unfold Wizard.effects, Wizard.changed.
  rewrite (bool_decide_eq_false_2 (Wizard.subDivision d = _)) by congruence.
  rewrite !bool_decide_eq_true_2 by done. cbn [negb app fold_left].
  destruct (wizard_render_group_empty _ Hr) as [y Hy].
  rewrite wizard_settle_unfold, Hy.
  unfold Wizard.effects, Wizard.changed.
  rewrite (bool_decide_eq_true_2 (Wizard.division d' = _)) by reflexivity.
  rewrite (bool_decide_eq_true_2 (Wizard.subDivision d' = _)) by reflexivity.
  cbn [negb app]. case_bool_decide as Hg'; cbn [negb app fold_left].
  - simpl in Hg'. pose proof (Hc Hg') as Hf0.
    destruct d'; wizard_unfold_resets; congruence.
  - apply wizard_settle_same_deps; try reflexivity.
    eexists; exact Hy.
Qed.

Lemma wizard_change_subDivision fuel d v :
  v ≠ Wizard.subDivision d →
  (Wizard.group d = "" → Wizard.family d = "") →
  returns (Wizard.render (Wizard.set_field Wizard.FSubDivision v d)) →
  Wizard.settle (S (S fuel)) (Some d) (Wizard.set_field Wizard.FSubDivision v d) =
  Done (Wizard.resetFamily (Wizard.resetGroup
          (Wizard.set_field Wizard.FSubDivision v d))).
Proof.
  intros Hv Hc Hr. apply wizard_subDivision_changed; try done.
Qed.

Lemma wizard_division_changed fuel d d' :
  Wizard.division d' ≠ Wizard.division d →
  Wizard.subDivision d' = Wizard.subDivision d →
  Wizard.group d' = Wizard.group d →
  wizard_chained d' →
  returns (Wizard.render d') →
  Wizard.settle (S (S (S fuel))) (Some d) d' = Done (wizard_cleared d').
Proof.
  intros Hv Hs Hg [Hc1 Hc2] [x Hx]. rewrite wizard_settle_unfold, Hx.
  unfold Wizard.effects, Wizard.changed.
  rewrite (bool_decide_eq_false_2 (Wizard.division d = _)) by congruence.
  rewrite !bool_decide_eq_true_2 by done. cbn [negb app fold_left].
  destruct (decide (Wizard.subDivision d' = "")) as [He|He].
  - pose proof (Hc1 He) as Hg0. pose proof (Hc2 Hg0) as Hf0.
    replace (Wizard.resetSubDivision d') with d'
      by (destruct d'; wizard_unfold_resets; congruence).
    replace (wizard_cleared d') with d'
      by (destruct d'; wizard_unfold_resets; congruence).
    apply wizard_settle_same_deps; try reflexivity. eexists; exact Hx.
  - unfold wizard_cleared.
    apply wizard_subDivision_changed; try reflexivity.
    + simpl. congruence.
    + exact Hc2.
    + by apply wizard_render_subDivision_empty.
Qed.

Lemma wizard_change_division fuel d v :
  v ≠ Wizard.division d →
  wizard_chained d →
  returns (Wizard.render (Wizard.set_field Wizard.FDivision v d)) →
  Wizard.settle (S (S (S fuel))) (Some d) (Wizard.set_field Wizard.FDivision v d) =
  Done (wizard_cleared (Wizard.set_field Wizard.FDivision v d)).
Proof.
  intros Hv Hc Hr. apply wizard_division_changed; try done.
Qed.

(** ** Referential integrity of the wizard's record *)

Lemma wizard_intact_chained d : wizard_intact d → wizard_chained d.
Proof.
  intros Hi. split.
  - intros Hs. unfold wizard_intact in Hi. rewrite Hs in Hi.
    by apply intact_subDivision_empty in Hi as [? _].
  - intros Hg. unfold wizard_intact in Hi. rewrite Hg in Hi.
    by apply intact_group_empty in Hi.
Qed.

Lemma wizard_intact_render d : wizard_intact d → returns (Wizard.render d).
Proof. apply intact_options. Qed.

Lemma wizard_offered opts v :
  Wizard.offered opts v = true → v = "" ∨ ∃ l, opts = Return l ∧ v ∈ l.
Proof.
  unfold Wizard.offered. destruct opts as [l|e]; [|discriminate].
  intros H. apply andb_true_iff in H as [_ H].
  apply orb_true_iff in H as [H|H].
  - left. by apply falsy_true.
  - right. exists l. split; [reflexivity|]. by apply bool_decide_eq_true in H.
Qed.

Lemma wizard_set_field_same f d v :
  v = match f with
      | Wizard.FNcoCode => Wizard.ncoCode d
      | Wizard.FDivision => Wizard.division d
      | Wizard.FSubDivision => Wizard.subDivision d
      | Wizard.FGroup => Wizard.group d
      | Wizard.FFamily => Wizard.family d
      | Wizard.FDescription => Wizard.description d
      end →
  Wizard.set_field f v d = d.
Proof. intros ->. destruct d, f; reflexivity. Qed.

(** One field update of the mounted details form, with its cascade. *)
Lemma wizard_update_intact fuel f v d0 d :
  wizard_intact d0 →
  Wizard.enabled (Wizard.Change f v) (Wizard.mkApp 1 d0 ∅ []) = true →
  Wizard.settle (S (S (S fuel))) (Some d0) (Wizard.set_field f v d0) = Done d →
  wizard_intact d.
Proof.
  intros Hi He Hs. pose proof (wizard_settle_throw _ _ _ _ Hs) as Hr.
  pose proof (wizard_intact_chained _ Hi) as Hc.
  destruct f.
  - rewrite wizard_settle_same_deps in Hs by (try reflexivity; exact Hr).
    injection Hs as <-. exact Hi.
  - destruct (decide (v = Wizard.division d0)) as [Hv|Hv].
    + rewrite wizard_set_field_same in Hs by exact Hv.
      rewrite wizard_settle_same_deps in Hs
        by (try reflexivity; by apply wizard_intact_render).
      injection Hs as <-. exact Hi.
    + rewrite wizard_change_division in Hs by assumption.
      injection Hs as <-. apply intact_cleared.
  - destruct (decide (v = Wizard.subDivision d0)) as [Hv|Hv].
    + rewrite wizard_set_field_same in Hs by exact Hv.
      rewrite wizard_settle_same_deps in Hs
        by (try reflexivity; by apply wizard_intact_render).
      injection Hs as <-. exact Hi.
    + rewrite wizard_change_subDivision in Hs by (try assumption; apply Hc).
      injection Hs as <-. unfold wizard_intact, Taxonomy.intact. simpl.
      split; [|auto].
      simpl in He. apply andb_true_iff in He as [_ He].
      apply wizard_offered in He as [->|(l & Hl & Hin)]; [auto|].
      right. eapply subDivisions_member; eassumption.
  - destruct (decide (v = Wizard.group d0)) as [Hv|Hv].
    + rewrite wizard_set_field_same in Hs by exact Hv.
      rewrite wizard_settle_same_deps in Hs
        by (try reflexivity; by apply wizard_intact_render).
      injection Hs as <-. exact Hi.
    + rewrite wizard_change_group in Hs by assumption.
      injection Hs as <-. unfold wizard_intact, Taxonomy.intact. simpl.
      split; [apply Hi|]. split; [|auto].
      simpl in He. apply andb_true_iff in He as [_ He].
      apply wizard_offered in He as [->|(l & Hl & Hin)]; [auto|].
      right. eapply groups_member; eassumption.
  - rewrite wizard_settle_same_deps in Hs by (try reflexivity; exact Hr).
    injection Hs as <-. unfold wizard_intact, Taxonomy.intact. simpl.
    split; [apply Hi|]. split; [apply Hi|].
    simpl in He. apply andb_true_iff in He as [_ He].
    apply wizard_offered in He as [->|(l & Hl & Hin)]; [auto|].
    right. eapply families_member; eassumption.
  - discriminate He.
Qed.

(** A [setFormData] that leaves the three dependencies alone. *)
Lemma wizard_commit_same_deps a d' outs a' :
  Wizard.division d' = Wizard.division (Wizard.formData a) →
  Wizard.subDivision d' = Wizard.subDivision (Wizard.formData a) →
  Wizard.group d' = Wizard.group (Wizard.formData a) →
  Wizard.commit a d' outs = Done a' →
  a' = Wizard.mkApp (Wizard.currentStep a) d' (Wizard.errs a) outs.
Proof.
  intros Hd Hs Hg. unfold Wizard.commit.
  destruct (Wizard.currentStep a =? 1)%Z; [|congruence].
  destruct (Wizard.settle _ _ _) as [d''| |] eqn:E; [|discriminate..].
  pose proof (wizard_settle_throw _ _ _ _ E) as Hr.
  rewrite wizard_settle_same_deps in E by assumption. congruence.
Qed.

Lemma wizard_mountDetails d outs :
  returns (Wizard.render d) →
  Wizard.mountDetails d outs = Done (Wizard.mkApp 1 (wizard_cleared d) ∅ outs).
Proof.
  intros Hr. unfold Wizard.mountDetails. change renderLimit with (S (S 48)).
  rewrite wizard_settle_mount by exact Hr. reflexivity.
Qed.

Lemma wizard_dispatch_intact e a a' :
  wizard_intact (Wizard.formData a) →
  Wizard.enabled e a = true →
  Wizard.dispatch e a = Done a' →
  wizard_intact (Wizard.formData a').
Proof.
  intros Hi He Hd. destruct e as [f v|v| | | |o]; simpl in Hd.
  - unfold Wizard.updateField, Wizard.commit in Hd.
    destruct (Wizard.currentStep a =? 1)%Z eqn:Hstep.
    + change renderLimit with (S (S (S 47))) in Hd.
      destruct (Wizard.settle _ _ _) as [d| |] eqn:Hs; [|discriminate..].
      injection Hd as <-. simpl.
      eapply wizard_update_intact; [exact Hi| |exact Hs].
      destruct a, f; simpl in *; rewrite ?Hstep in He; exact He.
    + injection Hd as <-. simpl.
      destruct f; simpl in He; rewrite Hstep in He; try discriminate He.
      exact Hi.
  - unfold Wizard.updateConfidence in Hd.
    apply wizard_commit_same_deps in Hd as ->; try reflexivity. exact Hi.
  - injection Hd as <-. unfold Wizard.handleSubmitDetails, Wizard.handleNext.
    destruct (isValid _); exact Hi.
  - unfold Wizard.handleBack in Hd.
    rewrite wizard_mountDetails in Hd by (by apply wizard_intact_render).
    injection Hd as <-. apply intact_cleared.
  - unfold Wizard.handleSubmitReview, Wizard.handleSubmit in Hd.
    destruct (isValid _).
    + rewrite wizard_mountDetails in Hd by (by apply wizard_render_subDivision_empty).
      injection Hd as <-. apply intact_cleared.
    + injection Hd as <-. exact Hi.
  - unfold Wizard.handleSuggestDescription in Hd. destruct o as [result|].
    + destruct (_ && _).
      * apply wizard_commit_same_deps in Hd as ->; try reflexivity. exact Hi.
      * injection Hd as <-. exact Hi.
    + injection Hd as <-. exact Hi.
Qed.

Lemma wizard_mount_state :
  Wizard.mount = Done (Wizard.mkApp 1 Wizard.defaultFormData ∅ []).
Proof. vm_compute. reflexivity. Qed.

Lemma wizard_reachable_intact a :
  Wizard.reachable a → wizard_intact (Wizard.formData a).
Proof.
  induction 1 as [a Hm|a e a' _ IH He Hd].
  - rewrite wizard_mount_state in Hm. injection Hm as <-. apply intact_cleared.
  - eapply wizard_dispatch_intact; eassumption.
Qed.

(** ** Sessions *)

Lemma single_session_reachable es : ∀ s s',
  Single.reachable s → single_session es s = Some (Done s') → Single.reachable s'.
Proof.
  induction es as [|e es IH]; intros s s' Hr; simpl.
  - intros [= <-]. exact Hr.
  - destruct (Single.enabled e s) eqn:He; [|discriminate].
    destruct (Single.dispatch e s) as [s1| |] eqn:Hd; try discriminate.
    apply IH. eapply Single.reach_step; eassumption.
Qed.

Lemma wizard_session_reachable es : ∀ a a',
  Wizard.reachable a → wizard_session es a = Some (Done a') → Wizard.reachable a'.
Proof.
  induction es as [|e es IH]; intros a a' Hr; simpl.
  - intros [= <-]. exact Hr.
  - destruct (Wizard.enabled e a) eqn:He; [|discriminate].
    destruct (Wizard.dispatch e a) as [a1| |] eqn:Hd; try discriminate.
    apply IH. eapply Wizard.reach_step; eassumption.
Qed.

Lemma single_mounted_reachable : Single.reachable single_mounted.
Proof. apply Single.reach_mount. vm_compute. reflexivity. Qed.

Lemma wizard_mounted_reachable : Wizard.reachable wizard_mounted.
Proof. apply Wizard.reach_mount. vm_compute. reflexivity. Qed.

Lemma single_selected_reachable :
  Single.reachable (Single.mkState single_selected ∅ []).
Proof.
  apply (single_session_reachable select_path_single single_mounted);
    [exact single_mounted_reachable|vm_compute; reflexivity].
Qed.

Lemma wizard_selected_reachable :
  Wizard.reachable (Wizard.mkApp 1 wizard_selected ∅ []).
Proof.
  apply (wizard_session_reachable select_path_wizard wizard_mounted);
    [exact wizard_mounted_reachable|vm_compute; reflexivity].
Qed.

(** ** The memos against the contract of the option lists *)

Lemma divisions_spec : Taxonomy.divisions = Taxonomy.childrenOf_spec [].
Proof. reflexivity. Qed.

Lemma subDivisions_spec d :
  Taxonomy.subDivisions d = Return (Taxonomy.childrenOf_spec [d]).
Proof.
  unfold Taxonomy.subDivisions, Taxonomy.childrenOf_spec.
  destruct (empty_string_cases d) as [->|Hd]; [reflexivity|].
  rewrite Hd. destruct (Taxonomy.get Taxonomy.ncoData d); reflexivity.
Qed.

Lemma groups_spec d s l :
  Taxonomy.groups d s = Return l → l = Taxonomy.childrenOf_spec [d; s].
Proof.
  unfold Taxonomy.groups, Taxonomy.childrenOf_spec.
  destruct (empty_string_cases d) as [->|Hd]; [intros [= <-]; reflexivity|].
  rewrite Hd. cbn [orb].
  destruct (Taxonomy.get Taxonomy.ncoData d) as [dd|] eqn:Edd.
  - destruct (empty_string_cases s) as [->|Hs].
    + intros [= <-]. destruct (Taxonomy.get dd "") as [sd|] eqn:Esd; [|reflexivity].
      destruct (ncoData_subDivision_nonempty _ _ _ Edd Esd).
    + rewrite Hs. intros [= <-]. destruct (Taxonomy.get dd s); reflexivity.
  - destruct (falsy s); [intros [= <-]; reflexivity|discriminate].
Qed.

Lemma families_spec d s g l :
  Taxonomy.families d s g = Return l → l = Taxonomy.childrenOf_spec [d; s; g].
Proof.
  unfold Taxonomy.families, Taxonomy.childrenOf_spec.
  destruct (empty_string_cases d) as [->|Hd]; [intros [= <-]; reflexivity|].
  rewrite Hd. cbn [orb].
  destruct (Taxonomy.get Taxonomy.ncoData d) as [dd|] eqn:Edd.
  - destruct (empty_string_cases s) as [->|Hs].
    + intros [= <-]. destruct (Taxonomy.get dd "") as [sd|] eqn:Esd; [|reflexivity].
      destruct (ncoData_subDivision_nonempty _ _ _ Edd Esd).
    + rewrite Hs. cbn [orb].
      destruct (Taxonomy.get dd s) as [sd|] eqn:Esd.
      * destruct (empty_string_cases g) as [->|Hg].
        -- intros [= <-]. destruct (Taxonomy.get sd "") as [fl|] eqn:Efl; [|reflexivity].
           destruct (ncoData_group_nonempty _ _ _ _ _ Edd Esd Efl).
        -- rewrite Hg. intros [= <-]. reflexivity.
      * destruct (falsy g); [intros [= <-]; reflexivity|discriminate].
  - destruct (falsy s || falsy g); [intros [= <-]; reflexivity|discriminate].
Qed.

(** C7 (option lists): the contract promises the empty sequence whenever an
    ancestor on the path is absent from the table.  The [families] memo
    indexes the sub-division object without a guard, so for the path
    Division B / Sub-Division A1 / Group A1-1, where the sub-division is not
    under the division, it raises a TypeError where the contract gives the
    empty list; the [groups] memo does the same when the division itself is
    absent.  Both pages render exactly that path when the division of a
    fully selected record is switched. *)
Theorem C7_families_raises_on_absent_ancestor :
  Taxonomy.families "Division B" "Sub-Division A1" "Group A1-1" = Throw TypeError ∧
  Taxonomy.childrenOf_spec ["Division B"; "Sub-Division A1"; "Group A1-1"] = [] ∧
  Taxonomy.groups "Division C" "Sub-Division A1" = Throw TypeError ∧
  Taxonomy.childrenOf_spec ["Division C"; "Sub-Division A1"] = [] ∧
  Single.render (Single.set_field Single.FDivision "Division B" single_selected)
    = Throw TypeError ∧
  Wizard.render (Wizard.set_field Wizard.FDivision "Division B" wizard_selected)
    = Throw TypeError.
Proof. vm_compute. repeat split; reflexivity. Qed.

(** C2 (division change): in a session that selects the full path under
    Division A and then switches the division to Division B, the render
    that follows the update raises in the [families] memo, the page is
    unmounted, and the reset effect never runs: no state with the three
    lower levels cleared is produced, in either page. *)
Theorem C2_division_change_crashes_on_selected_path :
  single_session
    (select_path_single ++ [Single.Change Single.FDivision "Division B"])
    single_mounted = Some Crashed ∧
  wizard_session
    (select_path_wizard ++ [Wizard.Change Wizard.FDivision "Division B"])
    wizard_mounted = Some Crashed.
Proof. vm_compute. split; reflexivity. Qed.

(** What the division change does whenever the render after it succeeds:
    the single page clears the three lower levels in one effect... *)
Lemma single_division_change_clears d v d' :
  v ≠ Single.division d →
  Single.settle renderLimit (Some d) (Single.set_field Single.FDivision v d) = Done d' →
  Single.division d' = v ∧ Single.subDivision d' = "" ∧
  Single.group d' = "" ∧ Single.family d' = "".
Proof.
  intros Hv Hs. pose proof (single_settle_throw _ _ _ _ Hs) as Hr.
  change renderLimit with (S (S 48)) in Hs.
  rewrite single_change_division in Hs by assumption.
  injection Hs as <-. repeat split.
Qed.

(** ... and the wizard clears them through its chain of one-level effects,
    from any record the chain can start on. *)
Lemma wizard_division_change_clears d v d' :
  v ≠ Wizard.division d →
  wizard_chained d →
  Wizard.settle renderLimit (Some d) (Wizard.set_field Wizard.FDivision v d) = Done d' →
  Wizard.division d' = v ∧ Wizard.subDivision d' = "" ∧
  Wizard.group d' = "" ∧ Wizard.family d' = "".
Proof.
  intros Hv Hc Hs. pose proof (wizard_settle_throw _ _ _ _ Hs) as Hr.
  change renderLimit with (S (S (S 47))) in Hs.
  rewrite wizard_change_division in Hs by assumption.
  injection Hs as <-. repeat split.
Qed.

(** The switch unmounts the page whenever a group is selected and the
    selected sub-division is not under the new division. *)
Lemma families_raises_outside d s g :
  d ≠ "" → s ≠ "" → g ≠ "" →
  (∀ dd, Taxonomy.get Taxonomy.ncoData d = Some dd → Taxonomy.get dd s = None) →
  Taxonomy.options d s g = Throw TypeError.
Proof.
  intros Hd Hs Hg Hout.
  assert (Taxonomy.families d s g = Throw TypeError) as Hf.
  { apply families_throws. repeat (split; [done|]).
    destruct (Taxonomy.get Taxonomy.ncoData d) as [dd|] eqn:E; [|done].
    by apply Hout. }
  unfold Taxonomy.options.
  destruct (subDivisions_returns d) as [sds ->].
  destruct (Taxonomy.groups d s) as [gs|e] eqn:Hgs.
  - rewrite Hf. reflexivity.
  - apply groups_throws in Hgs as (_ & _ & _ & ->). reflexivity.
Qed.

Lemma single_division_change_crashes d v :
  v ≠ "" → Single.subDivision d ≠ "" → Single.group d ≠ "" →
  (∀ dd, Taxonomy.get Taxonomy.ncoData v = Some dd →
         Taxonomy.get dd (Single.subDivision d) = None) →
  Single.settle renderLimit (Some d) (Single.set_field Single.FDivision v d) = Crashed.
Proof.
  intros Hv Hs Hg Hout. eapply single_settle_crash.
  unfold Single.render. cbn [Single.set_field Single.division Single.subDivision
    Single.group]. by apply families_raises_outside.
Qed.

Lemma wizard_division_change_crashes d v :
  v ≠ "" → Wizard.subDivision d ≠ "" → Wizard.group d ≠ "" →
  (∀ dd, Taxonomy.get Taxonomy.ncoData v = Some dd →
         Taxonomy.get dd (Wizard.subDivision d) = None) →
  Wizard.settle renderLimit (Some d) (Wizard.set_field Wizard.FDivision v d) = Crashed.
Proof.
  intros Hv Hs Hg Hout. eapply wizard_settle_crash.
  unfold Wizard.render. cbn [Wizard.set_field Wizard.division Wizard.subDivision
    Wizard.group]. by apply families_raises_outside.
Qed.

(** ** Every update stops, and all but a division switch complete *)

Lemma single_dispatch_stops e s : Single.dispatch e s ≠ OutOfFuel.
Proof.
  destruct e as [f v|v|]; simpl; [| |discriminate].
  - unfold Single.updateField. change renderLimit with (S (S 48)).
    pose proof (single_settle_total 48 (Some (Single.formData s))
                  (Single.set_field f v (Single.formData s))) as H.
    destruct (Single.settle _ _ _); congruence.
  - unfold Single.updateConfidenceScore. change renderLimit with (S (S 48)).
    pose proof (single_settle_total 48 (Some (Single.formData s))
                  (Single.set_confidenceScore [v] (Single.formData s))) as H.
    destruct (Single.settle _ _ _); congruence.
Qed.

Lemma wizard_commit_stops a d outs : Wizard.commit a d outs ≠ OutOfFuel.
Proof.
  unfold Wizard.commit. destruct (_ =? _)%Z; [|discriminate].
  change renderLimit with (S (S (S 47))).
  pose proof (wizard_settle_total 47 (Some (Wizard.formData a)) d) as H.
  destruct (Wizard.settle _ _ _); congruence.
Qed.

Lemma wizard_mountDetails_stops d outs : Wizard.mountDetails d outs ≠ OutOfFuel.
Proof.
  unfold Wizard.mountDetails. change renderLimit with (S (S (S 47))).
  pose proof (wizard_settle_total 47 None d) as H.
  destruct (Wizard.settle _ _ _); congruence.
Qed.

Lemma wizard_dispatch_stops e a : Wizard.dispatch e a ≠ OutOfFuel.
Proof.
  destruct e as [f v|v| | | |o]; simpl.
  - apply wizard_commit_stops.
  - apply wizard_commit_stops.
  - discriminate.
  - apply wizard_mountDetails_stops.
  - unfold Wizard.handleSubmitReview. destruct (isValid _); [|discriminate].
    apply wizard_mountDetails_stops.
  - unfold Wizard.handleSuggestDescription. destruct o as [r|]; [|discriminate].
    destruct (_ && _); [apply wizard_commit_stops|discriminate].
Qed.

(** C1 (referential integrity): every state either page can reach has
    subDivision empty or a key under division, group empty or a key under
    division.subDivision, and family empty or a member of the list at
    division.subDivision.group; every update delivered through an enabled
    control, run with the cascade effects it triggers until the page is
    quiescent, leads from an intact record to an intact record; and the
    cascade always comes to rest. *)
Theorem C1_referential_integrity :
  (∀ s, Single.reachable s → single_intact (Single.formData s)) ∧
  (∀ a, Wizard.reachable a → wizard_intact (Wizard.formData a)) ∧
  (∀ e s s', single_intact (Single.formData s) → Single.enabled e s = true →
     Single.dispatch e s = Done s' → single_intact (Single.formData s')) ∧
  (∀ e a a', wizard_intact (Wizard.formData a) → Wizard.enabled e a = true →
     Wizard.dispatch e a = Done a' → wizard_intact (Wizard.formData a')) ∧
  (∀ e s, Single.dispatch e s ≠ OutOfFuel) ∧
  (∀ e a, Wizard.dispatch e a ≠ OutOfFuel).
Proof.
  split; [exact single_reachable_intact|].
  split; [exact wizard_reachable_intact|].
  split; [exact single_dispatch_intact|].
  split; [exact wizard_dispatch_intact|].
  split; [exact single_dispatch_stops|exact wizard_dispatch_stops].
Qed.

Lemma C1_referential_integrity_witness :
  single_intact single_selected ∧ wizard_intact wizard_selected.
Proof.
  split.
  - exact (proj1 C1_referential_integrity _ single_selected_reachable).
  - exact (proj1 (proj2 C1_referential_integrity) _ wizard_selected_reachable).
Defined.

(** From an intact record, an update of any field other than the division
    runs to a quiescent state: the render after it finds every object it
    indexes. *)
Lemma single_update_completes fuel f v d0 :
  single_intact d0 →
  Single.enabled (Single.Change f v) (Single.mkState d0 ∅ []) = true →
  f ≠ Single.FDivision →
  ∃ d, Single.settle (S (S fuel)) (Some d0) (Single.set_field f v d0) = Done d.
Proof.
  intros Hi He Hf.
  assert (returns (Single.render (Single.set_field f v d0))) as Hr.
  { destruct f; try exact (single_intact_render d0 Hi); try done.
    - unfold Single.render. simpl. apply options_returns_under.
      simpl in He. apply andb_true_iff in He as [_ He].
      apply single_offered in He as [->|(l & Hl & Hin)]; [auto|].
      right. eapply subDivisions_member; eassumption.
    - unfold Single.render. simpl. apply options_returns_under. apply Hi. }
  destruct f; try done.
  - eexists. apply single_settle_same_deps; try reflexivity; exact Hr.
  - eexists. apply single_settle_same_deps; try reflexivity; exact Hr.
  - eexists. apply single_settle_same_deps; try reflexivity; exact Hr.
  - destruct (decide (v = Single.subDivision d0)) as [Hv|Hv].
    + eexists. apply single_settle_same_deps; try reflexivity; [|exact Hr].
      simpl. congruence.
    + eexists. apply single_change_subDivision; assumption.
  - destruct (decide (v = Single.group d0)) as [Hv|Hv].
    + eexists. apply single_settle_same_deps; try reflexivity; [|exact Hr].
      simpl. congruence.
    + eexists. apply single_change_group; assumption.
  - eexists. apply single_settle_same_deps; try reflexivity; exact Hr.
Qed.

Lemma wizard_update_completes fuel f v d0 :
  wizard_intact d0 →
  Wizard.enabled (Wizard.Change f v) (Wizard.mkApp 1 d0 ∅ []) = true →
  f ≠ Wizard.FDivision →
  ∃ d, Wizard.settle (S (S (S fuel))) (Some d0) (Wizard.set_field f v d0) = Done d.
Proof.
  intros Hi He Hf. pose proof (wizard_intact_chained _ Hi) as [Hc1 Hc2].
  assert (returns (Wizard.render (Wizard.set_field f v d0))) as Hr.
  { destruct f; try exact (wizard_intact_render d0 Hi); try done.
    - unfold Wizard.render. simpl. apply options_returns_under.
      simpl in He. apply andb_true_iff in He as [_ He].
      apply wizard_offered in He as [->|(l & Hl & Hin)]; [auto|].
      right. eapply subDivisions_member; eassumption.
    - unfold Wizard.render. simpl. apply options_returns_under. apply Hi. }
  destruct f; try done.
  - eexists. apply wizard_settle_same_deps; try reflexivity; exact Hr.
  - destruct (decide (v = Wizard.subDivision d0)) as [Hv|Hv].
    + eexists. apply wizard_settle_same_deps; try reflexivity; [|exact Hr].
      simpl. congruence.
    + eexists. apply wizard_change_subDivision; assumption.
  - destruct (decide (v = Wizard.group d0)) as [Hv|Hv].
    + eexists. apply wizard_settle_same_deps; try reflexivity; [|exact Hr].
      simpl. congruence.
    + eexists. apply wizard_change_group; assumption.
  - eexists. apply wizard_settle_same_deps; try reflexivity; exact Hr.
Qed.

(** ** Validation *)

Lemma description_flag_spec (s : string) :
  falsy s || (String.length s <? 10)%nat = false ↔
  s ≠ "" ∧ (10 ≤ String.length s)%nat.
Proof.
  rewrite orb_false_iff, falsy_false, Nat.ltb_ge. reflexivity.
Qed.

Lemma validateNcoReview_valid data :
  isValid (Wizard.validateNcoReview data) = true ↔
  Wizard.description data ≠ "" ∧ (10 ≤ String.length (Wizard.description data))%nat.
Proof.
  rewrite <- description_flag_spec. unfold Wizard.validateNcoReview.
  destruct (falsy _ || _); cbn [flag]; vm_compute; split; congruence.
Qed.

Lemma validateNcoReview_errors data :
  errors (Wizard.validateNcoReview data) =
  if isValid (Wizard.validateNcoReview data) then ∅
  else {["description" := "Description must be at least 10 characters"]}.
Proof.
  unfold Wizard.validateNcoReview.
  destruct (falsy _ || _); cbn [flag]; vm_compute; reflexivity.
Qed.

Lemma validateNcoDetails_valid data :
  isValid (Wizard.validateNcoDetails data) = true ↔
  Wizard.ncoCode data ≠ "" ∧ Wizard.division data ≠ "" ∧
  Wizard.subDivision data ≠ "" ∧ Wizard.group data ≠ "" ∧ Wizard.family data ≠ "".
Proof.
  rewrite <- !falsy_false. unfold Wizard.validateNcoDetails.
  destruct (falsy (Wizard.ncoCode data)), (falsy (Wizard.division data)),
    (falsy (Wizard.subDivision data)), (falsy (Wizard.group data)),
    (falsy (Wizard.family data)); cbn [flag]; vm_compute;
    (split; [try discriminate; auto 6|intros (?&?&?&?&?); congruence]).
Qed.

Lemma validateNcoDetails_invalid_errors data :
  isValid (Wizard.validateNcoDetails data) = false →
  errors (Wizard.validateNcoDetails data) ≠ ∅.
Proof.
  unfold Wizard.validateNcoDetails, result_of. cbn [isValid errors].
  intros H Hempty. rewrite Hempty in H. vm_compute in H. discriminate.
Qed.

(** C6 (review profile): review validation flags the description, with
    its fixed message, exactly when the description is empty or shorter
    than ten characters; the five-character description "short" is
    flagged; a description of exactly ten characters is not flagged and
    the result is valid. *)
Theorem C6_review_profile_flags_short_description :
  ∀ data : Wizard.FormData,
    let result := Wizard.validateNcoReview data in
    (errors result !! "description" =
       Some "Description must be at least 10 characters" ↔
     Wizard.description data = "" ∨
     (String.length (Wizard.description data) < 10)%nat) ∧
    (errors result !! "description" = None ↔
     (10 ≤ String.length (Wizard.description data))%nat) ∧
    (Wizard.description data = "short" →
     errors result !! "description" =
       Some "Description must be at least 10 characters") ∧
    (String.length (Wizard.description data) = 10%nat →
     errors result !! "description" = None ∧ errors result = ∅ ∧
     isValid result = true).
Proof.
  intros data result.
  assert (Hcases :
    (isValid result = true ∧ errors result = ∅ ∧
     Wizard.description data ≠ "" ∧
     (10 ≤ String.length (Wizard.description data))%nat) ∨
    (isValid result = false ∧
     errors result = {["description" := "Description must be at least 10 characters"]} ∧
     (Wizard.description data = "" ∨
      (String.length (Wizard.description data) < 10)%nat))).
  { pose proof (validateNcoReview_valid data) as Hv.
    pose proof (validateNcoReview_errors data) as He.
    fold result in Hv, He.
    destruct (isValid result).
    - left. destruct Hv as [Hv _]. destruct (Hv eq_refl). auto.
    - right. split; [reflexivity|]. split; [exact He|].
      destruct (decide (Wizard.description data = "")) as [|Hne]; [auto|].
      right. apply Nat.nle_gt. intros Hle.
      destruct Hv as [_ Hv]. discriminate (Hv (conj Hne Hle)). }
  destruct Hcases as [(Hv & He & Hne & Hle)|(Hv & He & Hshort)]; rewrite He.
  - split; [|split; [|split]].
    + rewrite lookup_empty. split; [discriminate|].
      intros [?|?]; [congruence|lia].
    + rewrite lookup_empty. tauto.
    + intros Hs. rewrite Hs in Hle. simpl in Hle. lia.
    + intros _. rewrite lookup_empty. auto.
  - rewrite lookup_singleton_eq. split; [|split; [|split]].
    + tauto.
    + split; [discriminate|]. intros Hle. exfalso.
      destruct Hshort as [Hs|Hs]; [rewrite Hs in Hle; simpl in Hle|]; lia.
    + reflexivity.
    + intros Hlen. exfalso.
      destruct Hshort as [Hs|Hs]; [rewrite Hs in Hlen; simpl in Hlen|]; lia.
Qed.

(** C4 (advance): from the Details step, the advance action moves to the
    Review step exactly when details validation is valid, that is when
    ncoCode, division, subDivision, group and family are all non-empty;
    the record is kept either way, and when validation fails the step stays
    Details and the non-empty error map of the validation is what the form
    shows. *)
Theorem C4_advance_iff_details_valid :
  ∀ a : Wizard.App,
    Wizard.currentStep a = 1%Z →
    let validation := Wizard.validateNcoDetails (Wizard.formData a) in
    let d := Wizard.formData a in
    (isValid validation = true ↔
     Wizard.ncoCode d ≠ "" ∧ Wizard.division d ≠ "" ∧ Wizard.subDivision d ≠ "" ∧
     Wizard.group d ≠ "" ∧ Wizard.family d ≠ "") ∧
    (isValid validation = true →
     Wizard.dispatch Wizard.Next a = Done (Wizard.mkApp 2 d ∅ (Wizard.outputs a))) ∧
    (isValid validation = false →
     Wizard.dispatch Wizard.Next a =
       Done (Wizard.mkApp 1 d (errors validation) (Wizard.outputs a)) ∧
     errors validation ≠ ∅).
Proof.
  intros a Hstep validation d.
  split; [apply validateNcoDetails_valid|].
  unfold Wizard.dispatch, Wizard.handleSubmitDetails, Wizard.handleNext.
  fold validation d. split; intros Hv; rewrite Hv.
  - reflexivity.
  - rewrite Hstep. split; [reflexivity|].
    by apply validateNcoDetails_invalid_errors.
Qed.

Lemma C4_advance_iff_details_valid_witness :
  Wizard.dispatch Wizard.Next
    (Wizard.mkApp 1 (Wizard.set_field Wizard.FNcoCode "1111" wizard_selected) ∅ []) =
  Done (Wizard.mkApp 2 (Wizard.set_field Wizard.FNcoCode "1111" wizard_selected) ∅ []).
Proof.
  exact (proj1 (proj2 (C4_advance_iff_details_valid
    (Wizard.mkApp 1 (Wizard.set_field Wizard.FNcoCode "1111" wizard_selected) ∅ [])
    eq_refl)) eq_refl).
Defined.

(** C3 (submit): in the Review step the submit action goes through exactly
    when review validation is valid, that is when the description is
    non-empty and at least ten characters long; then the record is back at
    its defaults (every string empty, confidence 75) and the step is
    Details; otherwise the step stays Review, the record is kept and the
    description error is shown. *)
Theorem C3_submit_iff_review_valid :
  ∀ a : Wizard.App,
    Wizard.currentStep a = 2%Z →
    let validation := Wizard.validateNcoReview (Wizard.formData a) in
    let d := Wizard.formData a in
    (isValid validation = true ↔
     Wizard.description d ≠ "" ∧ (10 ≤ String.length (Wizard.description d))%nat) ∧
    (isValid validation = true →
     Wizard.dispatch Wizard.SubmitReview a =
       Done (Wizard.mkApp 1 (Wizard.mkFormData "" "" "" "" "" "" [75%Z]) ∅
               (Wizard.outputs a ++
                [Wizard.ConsoleLog "Final Data:" d;
                 Wizard.Toast "success" "Submission Successful!"
                   ("NCO entry " ++ Wizard.ncoCode d ++ " has been submitted.")]))) ∧
    (isValid validation = false →
     Wizard.dispatch Wizard.SubmitReview a =
       Done (Wizard.mkApp 2 d
               {["description" := "Description must be at least 10 characters"]}
               (Wizard.outputs a))).
Proof.
  intros a Hstep validation d.
  split; [apply validateNcoReview_valid|].
  unfold Wizard.dispatch, Wizard.handleSubmitReview, Wizard.handleSubmit.
  fold validation d. split; intros Hv; rewrite Hv.
  - rewrite wizard_mountDetails by (by apply wizard_render_subDivision_empty).
    reflexivity.
  - rewrite Hstep. unfold validation. rewrite validateNcoReview_errors.
    fold validation. rewrite Hv. reflexivity.
Qed.

Lemma C3_submit_iff_review_valid_witness :
  Wizard.dispatch Wizard.SubmitReview wizard_described =
  Done (Wizard.mkApp 1 (Wizard.mkFormData "" "" "" "" "" "" [75%Z]) ∅
          [Wizard.ConsoleLog "Final Data:" (Wizard.formData wizard_described);
           Wizard.Toast "success" "Submission Successful!"
             "NCO entry 1111 has been submitted."]).
Proof.
  exact (proj1 (proj2 (C3_submit_iff_review_valid wizard_described eq_refl)) eq_refl).
Defined.

Lemma lookup_flag c f m (e : gmap string string) i :
  flag c f m e !! i =
  if c then (if decide (f = i) then Some m else e !! i) else e !! i.
Proof. unfold flag. destruct c; [apply lookup_insert|reflexivity]. Qed.

Lemma result_of_valid (e : gmap string string) :
  isValid (result_of e) = true ↔ e = ∅.
Proof.
  unfold result_of. cbn [isValid]. rewrite Nat.eqb_eq. apply map_size_empty_iff.
Qed.

(** C5 (single-page profile): for every record the error map of the
    single-page validator is the union of the wizard's details error map,
    the wizard's review error map and the title entry (present exactly when
    the title is empty), with the same message per field; and the result is
    valid exactly when that union is empty. *)
Theorem C5_single_profile_is_union :
  ∀ data : Single.FormData,
    let union : gmap string string :=
      errors (Wizard.validateNcoDetails (wizard_view data)) ∪
      errors (Wizard.validateNcoReview (wizard_view data)) ∪
      (if falsy (Single.title data) then {["title" := "Title is required"]} else ∅) in
    errors (Single.validateForm data) = union ∧
    (isValid (Single.validateForm data) = true ↔ union = ∅).
Proof.
  intros data union.
  assert (Heq : errors (Single.validateForm data) = union).
  { subst union.
    unfold Single.validateForm, Wizard.validateNcoDetails, Wizard.validateNcoReview,
      wizard_view, result_of.
    cbn [errors Wizard.ncoCode Wizard.division Wizard.subDivision Wizard.group
         Wizard.family Wizard.description].
    generalize (falsy (Single.ncoCode data)), (falsy (Single.title data)),
      (falsy (Single.description data) ||
       (String.length (Single.description data) <? 10)%nat),
      (falsy (Single.division data)), (falsy (Single.subDivision data)),
      (falsy (Single.group data)), (falsy (Single.family data)).
    intros c1 c2 c3 c4 c5 c6 c7. apply map_eq. intros i.
    rewrite !lookup_union, !lookup_flag, !lookup_empty.
    assert (Ht : (if c2 then ({["title" := "Title is required"]} : gmap string string)
                  else ∅) !! i =
                 if c2 then (if decide ("title" = i) then Some "Title is required"
                             else None) else None).
    { destruct c2; [apply lookup_singleton|apply lookup_empty]. }
    rewrite Ht. clear Ht.
    repeat case_decide; subst; try discriminate;
      destruct c1, c2, c3, c4, c5, c6, c7; reflexivity. }
  split; [exact Heq|].
  rewrite <- Heq. unfold Single.validateForm. apply result_of_valid.
Qed.

(** C9 (single-page submit): a submit whose validation succeeds keeps
    every field of the record; the error map is cleared and the
    acknowledgement is shown. *)
Theorem C9_single_submit_keeps_record :
  ∀ s : Single.State,
    isValid (Single.validateForm (Single.formData s)) = true →
    Single.dispatch Single.Submit s =
    Done (Single.mkState (Single.formData s) ∅
            (Single.outputs s ++
             [Single.ConsoleLog "Form submitted:" (Single.formData s);
              Single.Alert "NCO entry saved successfully!"])).
Proof.
  intros s Hv. unfold Single.dispatch, Single.handleSubmit. rewrite Hv. reflexivity.
Qed.

Lemma C9_single_submit_keeps_record_witness :
  Single.dispatch Single.Submit
    (Single.mkState
       (Single.mkFormData "1111" "Driver" "Drives a taxi." "Division A"
          "Sub-Division A1" "Group A1-1" "Family A1-1-1" [50%Z])
       {["title" := "Title is required"]} []) =
  Done (Single.mkState
          (Single.mkFormData "1111" "Driver" "Drives a taxi." "Division A"
             "Sub-Division A1" "Group A1-1" "Family A1-1-1" [50%Z])
          ∅
          [Single.ConsoleLog "Form submitted:"
             (Single.mkFormData "1111" "Driver" "Drives a taxi." "Division A"
                "Sub-Division A1" "Group A1-1" "Family A1-1-1" [50%Z]);
           Single.Alert "NCO entry saved successfully!"]).
Proof.
  exact (C9_single_submit_keeps_record
    (Single.mkState
       (Single.mkFormData "1111" "Driver" "Drives a taxi." "Division A"
          "Sub-Division A1" "Group A1-1" "Family A1-1-1" [50%Z])
       {["title" := "Title is required"]} []) eq_refl).
Defined.

(** ** The description suggestion *)

(** The repository's own service always resolves, with a success flag and
    a non-empty text. *)
Lemma getNcoDescriptionSuggestion_success division subDivision group family :
  let result := Wizard.getNcoDescriptionSuggestion division subDivision group family in
  Wizard.success result = true ∧ falsy (Wizard.result_description result) = false.
Proof. split; reflexivity. Qed.

(** C8 as stated fails on a success result whose text is empty: the
    handler's guard sends it down the failure branch, so the description
    typed before is kept (not replaced by the returned text) and the
    notification raised is the error one. *)
Lemma C8_counterexample_empty_suggestion :
  Wizard.success (Wizard.mkSuggestion true "") = true ∧
  Wizard.dispatch (Wizard.Settled (Wizard.Resolved (Wizard.mkSuggestion true "")))
    wizard_described =
  Done (Wizard.mkApp 2 (Wizard.formData wizard_described) ∅
          [Wizard.suggestionFailed]) ∧
  Wizard.description (Wizard.formData wizard_described) ≠
  Wizard.result_description (Wizard.mkSuggestion true "").
Proof. split; [reflexivity|]. split; [reflexivity|discriminate]. Qed.

(** C8 (suggestion, amended): in the Review step, when the suggestion
    resolves with a success result carrying a non-empty text, the
    description becomes that text, every other field and the error map are
    kept, and the success notification is raised; when it resolves with a
    failure result or with an empty text, or is rejected, the whole record
    is kept and only the error notification is raised. *)
Theorem C8_suggestion_overwrites_only_description :
  ∀ a : Wizard.App,
    Wizard.currentStep a = 2%Z →
    let d := Wizard.formData a in
    (∀ r, Wizard.success r = true → Wizard.result_description r ≠ "" →
       Wizard.dispatch (Wizard.Settled (Wizard.Resolved r)) a =
       Done (Wizard.mkApp 2
               (Wizard.mkFormData (Wizard.ncoCode d) (Wizard.division d)
                  (Wizard.subDivision d) (Wizard.group d) (Wizard.family d)
                  (Wizard.result_description r) (Wizard.confidence d))
               (Wizard.errs a) (Wizard.outputs a ++ [Wizard.suggestionReady]))) ∧
    (∀ r, Wizard.success r = false ∨ Wizard.result_description r = "" →
       Wizard.dispatch (Wizard.Settled (Wizard.Resolved r)) a =
       Done (Wizard.mkApp 2 d (Wizard.errs a)
               (Wizard.outputs a ++ [Wizard.suggestionFailed]))) ∧
    Wizard.dispatch (Wizard.Settled Wizard.Rejected) a =
    Done (Wizard.mkApp 2 d (Wizard.errs a)
            (Wizard.outputs a ++ [Wizard.suggestionFailed])).
Proof.
  intros a Hstep d. unfold Wizard.dispatch, Wizard.handleSuggestDescription.
  split; [|split].
  - intros r Hs Hne. apply falsy_false in Hne. rewrite Hs, Hne. cbn [andb negb].
    unfold Wizard.commit. rewrite Hstep. reflexivity.
  - intros r [Hs|He].
    + rewrite Hs, Hstep. reflexivity.
    + rewrite He, andb_false_r, Hstep. reflexivity.
  - rewrite Hstep. reflexivity.
Qed.

Lemma C8_suggestion_overwrites_only_description_witness :
  Wizard.dispatch
    (Wizard.Settled (Wizard.Resolved
       (Wizard.getNcoDescriptionSuggestion "Division A" "Sub-Division A1"
          "Group A1-1" "Family A1-1-1")))
    wizard_reviewing =
  Done (Wizard.mkApp 2
          (Wizard.mkFormData "1111" "Division A" "Sub-Division A1" "Group A1-1"
             "Family A1-1-1"
             (Wizard.result_description
                (Wizard.getNcoDescriptionSuggestion "Division A" "Sub-Division A1"
                   "Group A1-1" "Family A1-1-1"))
             [75%Z])
          ∅ [Wizard.suggestionReady]).
Proof.
  refine (proj1 (C8_suggestion_overwrites_only_description wizard_reviewing eq_refl)
            (Wizard.getNcoDescriptionSuggestion "Division A" "Sub-Division A1"
               "Group A1-1" "Family A1-1-1") eq_refl _).
  discriminate.
Defined.

(** ** Going back from the Review step *)

Lemma wizard_reviewing_reachable : Wizard.reachable wizard_reviewing.
Proof.
  apply (wizard_session_reachable
           (Wizard.Change Wizard.FNcoCode "1111" :: select_path_wizard ++ [Wizard.Next])
           wizard_mounted);
    [exact wizard_mounted_reachable|vm_compute; reflexivity].
Qed.

(** C10 (back): from any Review state the wizard can reach, Back remounts
    the details form, whose mount-time effects empty subDivision, group and
    family while ncoCode, division, description and confidence keep their
    values; the record that results does not pass details validation. *)
Theorem C10_back_resets_lower_levels :
  ∀ a : Wizard.App,
    Wizard.reachable a →
    Wizard.currentStep a = 2%Z →
    let d := Wizard.formData a in
    let d' := Wizard.mkFormData (Wizard.ncoCode d) (Wizard.division d) "" "" ""
                (Wizard.description d) (Wizard.confidence d) in
    Wizard.dispatch Wizard.Back a = Done (Wizard.mkApp 1 d' ∅ (Wizard.outputs a)) ∧
    isValid (Wizard.validateNcoDetails d') = false.
Proof.
  intros a Hr Hstep d d'. split.
  - unfold Wizard.dispatch, Wizard.handleBack.
    rewrite wizard_mountDetails; [reflexivity|].
    apply wizard_intact_render, wizard_reachable_intact, Hr.
  - destruct (isValid (Wizard.validateNcoDetails d')) eqn:Hv; [|reflexivity].
    apply validateNcoDetails_valid in Hv as (_ & _ & Hs & _).
    exfalso. apply Hs. reflexivity.
Qed.

Lemma C10_back_resets_lower_levels_witness :
  Wizard.dispatch Wizard.Back wizard_reviewing =
  Done (Wizard.mkApp 1 (Wizard.mkFormData "1111" "Division A" "" "" "" "" [75%Z]) ∅ []).
Proof.
  exact (proj1 (C10_back_resets_lower_levels wizard_reviewing
                  wizard_reviewing_reachable eq_refl)).
Defined.

(** * Further properties of the two pages and the shell *)

(** ** When the division switch unmounts the page *)

(** Sub-division names are not shared between divisions of the table. *)
Lemma subDivision_names_unique d dd s v dv :
  Taxonomy.get Taxonomy.ncoData d = Some dd →
  s ∈ Taxonomy.Object_keys dd →
  Taxonomy.get Taxonomy.ncoData v = Some dv →
  v ≠ d →
  Taxonomy.get dv s = None.
Proof.
  intros Hd Hin Hv Hne.
  apply ncoData_cases in Hd as [[-> Hd]|[-> Hd]];
    apply ncoData_cases in Hv as [[-> Hv]|[-> Hv]]; try congruence;
    vm_compute in Hd; injection Hd as <-;
    vm_compute in Hv; injection Hv as <-;
    unfold Taxonomy.Object_keys in Hin; simpl in Hin;
    repeat (apply elem_of_cons in Hin as [->|Hin]);
    try (by apply elem_of_nil in Hin); vm_compute; reflexivity.
Qed.

Lemma offered_division_key v :
  v ∈ Taxonomy.divisions → ∃ dv, Taxonomy.get Taxonomy.ncoData v = Some dv.
Proof. apply key_get_Some. Qed.

(** The render after a division switch, for an intact record and a
    division the select offers. *)
Lemma division_switch_render d s g f v :
  Taxonomy.intact d s g f →
  v = "" ∨ v ∈ Taxonomy.divisions →
  v ≠ d →
  (Taxonomy.options v s g = Throw TypeError ∧ v ≠ "" ∧ s ≠ "" ∧ g ≠ "") ∨
  (returns (Taxonomy.options v s g) ∧ (v = "" ∨ s = "" ∨ g = "")).
Proof.
  intros Hi Hv Hne.
  destruct (decide (v = "")) as [->|Hv0].
  { right. split; [|auto]. apply options_returns.
    split; eexists; reflexivity. }
  destruct Hv as [?|Hv]; [done|].
  destruct (offered_division_key _ Hv) as [dv Hdv].
  destruct (decide (s = "")) as [->|Hs0].
  { right. split; [apply options_subDivision_empty|auto]. }
  destruct (decide (g = "")) as [->|Hg0].
  { right. split; [|auto]. apply options_returns. split.
    - destruct (returns_or_throws (Taxonomy.groups v s)) as [|[e He]]; [done|].
      apply groups_throws in He as (_ & _ & He & _). congruence.
    - unfold Taxonomy.families. cbn [falsy]. rewrite orb_true_r.
      eexists; reflexivity. }
  left. split; [|done].
  apply families_raises_outside; try done.
  intros dv' Hdv'. destruct Hi as ([?|(dd & Hdd & Hin)] & _); [done|].
  exact (subDivision_names_unique d dd s v dv' Hdd Hin Hdv' Hne).
Qed.

Lemma single_division_switch_crash_iff d0 v :
  single_intact d0 →
  v = "" ∨ v ∈ Taxonomy.divisions →
  Single.settle renderLimit (Some d0) (Single.set_field Single.FDivision v d0) = Crashed ↔
  v ≠ "" ∧ v ≠ Single.division d0 ∧
  Single.subDivision d0 ≠ "" ∧ Single.group d0 ≠ "".
Proof.
  intros Hi Hv. destruct (decide (v = Single.division d0)) as [He|Hne].
  { rewrite single_set_field_same by exact He.
    rewrite single_settle_same_deps by (try reflexivity; by apply single_intact_render).
    split; [discriminate|]. intros (_ & H & _). done. }
  destruct (division_switch_render _ _ _ _ v Hi Hv Hne)
    as [(Ht & H1 & H2 & H3)|(Hr & Hor)].
  - split; [auto|]. intros _. eapply single_settle_crash. exact Ht.
  - change renderLimit with (S (S 48)).
    rewrite single_change_division by assumption.
    split; [discriminate|]. intros (? & _ & ? & ?).
    destruct Hor as [?|[?|?]]; done.
Qed.

Lemma wizard_division_switch_crash_iff d0 v :
  wizard_intact d0 →
  v = "" ∨ v ∈ Taxonomy.divisions →
  Wizard.settle renderLimit (Some d0) (Wizard.set_field Wizard.FDivision v d0) = Crashed ↔
  v ≠ "" ∧ v ≠ Wizard.division d0 ∧
  Wizard.subDivision d0 ≠ "" ∧ Wizard.group d0 ≠ "".
Proof.
  intros Hi Hv. destruct (decide (v = Wizard.division d0)) as [He|Hne].
  { rewrite wizard_set_field_same by exact He.
    rewrite wizard_settle_same_deps by (try reflexivity; by apply wizard_intact_render).
    split; [discriminate|]. intros (_ & H & _). done. }
  destruct (division_switch_render _ _ _ _ v Hi Hv Hne)
    as [(Ht & H1 & H2 & H3)|(Hr & Hor)].
  - split; [auto|]. intros _. eapply wizard_settle_crash. exact Ht.
  - change renderLimit with (S (S (S 47))).
    rewrite wizard_change_division
      by (try assumption; by apply wizard_intact_chained).
    split; [discriminate|]. intros (? & _ & ? & ?).
    destruct Hor as [?|[?|?]]; done.
Qed.

Lemma single_offered_division v :
  Single.offered (Return Taxonomy.divisions) v = true →
  v = "" ∨ v ∈ Taxonomy.divisions.
Proof.
  intros H. apply single_offered in H as [?|(l & [= <-] & ?)]; auto.
Qed.

Lemma wizard_offered_division v :
  Wizard.offered (Return Taxonomy.divisions) v = true →
  v = "" ∨ v ∈ Taxonomy.divisions.
Proof.
  intros H. apply wizard_offered in H as [?|(l & [= <-] & ?)]; auto.
Qed.

(** X1 (single page, division switch): from an intact record, choosing a
    division in the select unmounts the page exactly when the chosen
    division is a non-empty one other than the current, and a sub-division
    and a group are selected.  In particular clearing the division, or
    switching it before a group is chosen, never does. *)
Theorem single_division_switch_crashes_iff :
  ∀ (s : Single.State) (v : string),
    single_intact (Single.formData s) →
    Single.enabled (Single.Change Single.FDivision v) s = true →
    (Single.dispatch (Single.Change Single.FDivision v) s = Crashed ↔
     v ≠ "" ∧ v ≠ Single.division (Single.formData s) ∧
     Single.subDivision (Single.formData s) ≠ "" ∧
     Single.group (Single.formData s) ≠ "").
Proof.
  intros s v Hi He. simpl in He. apply single_offered_division in He.
  rewrite <- (single_division_switch_crash_iff _ _ Hi He).
  unfold Single.dispatch, Single.updateField.
  destruct (Single.settle _ _ _); split; congruence.
Qed.

Lemma single_division_switch_crashes_iff_witness :
  Single.dispatch (Single.Change Single.FDivision "Division B")
    (Single.mkState single_selected ∅ []) = Crashed.
Proof.
  apply (single_division_switch_crashes_iff (Single.mkState single_selected ∅ [])
           "Division B").
  - apply (single_reachable_intact _ single_selected_reachable).
  - vm_compute. reflexivity.
  - repeat split; discriminate.
Defined.

(** X2 (wizard, division switch): the same for the details form of the
    wizard. *)
Theorem wizard_division_switch_crashes_iff :
  ∀ (a : Wizard.App) (v : string),
    wizard_intact (Wizard.formData a) →
    Wizard.enabled (Wizard.Change Wizard.FDivision v) a = true →
    (Wizard.dispatch (Wizard.Change Wizard.FDivision v) a = Crashed ↔
     v ≠ "" ∧ v ≠ Wizard.division (Wizard.formData a) ∧
     Wizard.subDivision (Wizard.formData a) ≠ "" ∧
     Wizard.group (Wizard.formData a) ≠ "").
Proof.
  intros a v Hi He. simpl in He. apply andb_true_iff in He as [Hstep He].
  apply wizard_offered_division in He.
  rewrite <- (wizard_division_switch_crash_iff _ _ Hi He).
  unfold Wizard.dispatch, Wizard.updateField, Wizard.commit. rewrite Hstep.
  destruct (Wizard.settle _ _ _); split; congruence.
Qed.

Lemma wizard_division_switch_crashes_iff_witness :
  Wizard.dispatch (Wizard.Change Wizard.FDivision "Division B")
    (Wizard.mkApp 1 wizard_selected ∅ []) = Crashed.
Proof.
  apply (wizard_division_switch_crashes_iff (Wizard.mkApp 1 wizard_selected ∅ [])
           "Division B").
  - apply (wizard_reachable_intact _ wizard_selected_reachable).
  - vm_compute. reflexivity.
  - repeat split; discriminate.
Defined.

(** ** No other event unmounts a page *)

Lemma single_dispatch_completes e s :
  single_intact (Single.formData s) →
  Single.enabled e s = true →
  (∀ v, e ≠ Single.Change Single.FDivision v) →
  ∃ s', Single.dispatch e s = Done s'.
Proof.
  intros Hi He Hne. destruct e as [f v|v|]; simpl.
  - assert (f ≠ Single.FDivision) as Hf by (intros ->; by apply (Hne v)).
    destruct (single_update_completes 48 f v (Single.formData s) Hi) as [d Hd];
      [destruct s; exact He|exact Hf|].
    unfold Single.updateField. change renderLimit with (S (S 48)).
    rewrite Hd. eexists; reflexivity.
  - unfold Single.updateConfidenceScore.
    rewrite single_settle_same_deps
      by (try reflexivity; exact (single_intact_render _ Hi)).
    eexists; reflexivity.
  - eexists; reflexivity.
Qed.

Lemma wizard_dispatch_completes e a :
  wizard_intact (Wizard.formData a) →
  Wizard.enabled e a = true →
  (∀ v, e ≠ Wizard.Change Wizard.FDivision v) →
  ∃ a', Wizard.dispatch e a = Done a'.
Proof.
  intros Hi He Hne. destruct e as [f v|v| | | |o]; simpl.
  - assert (f ≠ Wizard.FDivision) as Hf by (intros ->; by apply (Hne v)).
    unfold Wizard.updateField, Wizard.commit.
    destruct (Wizard.currentStep a =? 1)%Z eqn:Hstep; [|eexists; reflexivity].
    destruct (wizard_update_completes 47 f v (Wizard.formData a) Hi) as [d Hd];
      [|exact Hf|].
    { destruct a, f; simpl in *; rewrite ?Hstep in He; exact He. }
    change renderLimit with (S (S (S 47))). rewrite Hd. eexists; reflexivity.
  - unfold Wizard.updateConfidence, Wizard.commit.
    destruct (Wizard.currentStep a =? 1)%Z; [|eexists; reflexivity].
    rewrite wizard_settle_same_deps
      by (try reflexivity; exact (wizard_intact_render _ Hi)).
    eexists; reflexivity.
  - eexists; reflexivity.
  - unfold Wizard.handleBack.
    rewrite wizard_mountDetails by exact (wizard_intact_render _ Hi).
    eexists; reflexivity.
  - unfold Wizard.handleSubmitReview, Wizard.handleSubmit.
    destruct (isValid _); [|eexists; reflexivity].
    rewrite wizard_mountDetails by (by apply wizard_render_subDivision_empty).
    eexists; reflexivity.
  - unfold Wizard.handleSuggestDescription. destruct o as [r|]; [|eexists; reflexivity].
    destruct (_ && _); [|eexists; reflexivity].
    unfold Wizard.commit.
    destruct (Wizard.currentStep a =? 1)%Z; [|eexists; reflexivity].
    rewrite wizard_settle_same_deps
      by (try reflexivity; exact (wizard_intact_render _ Hi)).
    eexists; reflexivity.
Qed.

(** X3 (no other crash): in any state either page can reach, every event
    the page can deliver other than a change of the division runs to a
    quiescent state: the render never raises and the effects come to
    rest. *)
Theorem only_division_switch_can_crash :
  (∀ s e, Single.reachable s → Single.enabled e s = true →
     (∀ v, e ≠ Single.Change Single.FDivision v) →
     ∃ s', Single.dispatch e s = Done s') ∧
  (∀ a e, Wizard.reachable a → Wizard.enabled e a = true →
     (∀ v, e ≠ Wizard.Change Wizard.FDivision v) →
     ∃ a', Wizard.dispatch e a = Done a').
Proof.
  split.
  - intros s e Hr. apply single_dispatch_completes, single_reachable_intact, Hr.
  - intros a e Hr. apply wizard_dispatch_completes, wizard_reachable_intact, Hr.
Qed.

Lemma only_division_switch_can_crash_witness :
  (∃ s', Single.dispatch (Single.Change Single.FSubDivision "Sub-Division A2")
           (Single.mkState single_selected ∅ []) = Done s') ∧
  (∃ a', Wizard.dispatch Wizard.Back wizard_reviewing = Done a').
Proof.
  split.
  - apply (proj1 only_division_switch_can_crash _ _ single_selected_reachable);
      [vm_compute; reflexivity|discriminate].
  - apply (proj2 only_division_switch_can_crash _ _ wizard_reviewing_reachable);
      [vm_compute; reflexivity|discriminate].
Defined.

(** ** What a change of sub-division or group resets *)

(** X6 (single page, cascade below the division): choosing another
    sub-division sets it and empties group and family; choosing another
    group sets it and empties family; nothing else in the record changes,
    the error of the edited field is dropped and nothing is written out. *)
Theorem single_change_resets_below :
  ∀ (s : Single.State) (v : string),
    single_intact (Single.formData s) →
    let d := Single.formData s in
    (Single.enabled (Single.Change Single.FSubDivision v) s = true →
     v ≠ Single.subDivision d →
     Single.dispatch (Single.Change Single.FSubDivision v) s =
     Done (Single.mkState
             (Single.mkFormData (Single.ncoCode d) (Single.title d)
                (Single.description d) (Single.division d) v "" ""
                (Single.confidenceScore d))
             (Single.clearError "subDivision" (Single.errs s)) (Single.outputs s))) ∧
    (Single.enabled (Single.Change Single.FGroup v) s = true →
     v ≠ Single.group d →
     Single.dispatch (Single.Change Single.FGroup v) s =
     Done (Single.mkState
             (Single.mkFormData (Single.ncoCode d) (Single.title d)
                (Single.description d) (Single.division d) (Single.subDivision d)
                v "" (Single.confidenceScore d))
             (Single.clearError "group" (Single.errs s)) (Single.outputs s))).
Proof.
  intros s v Hi d. split; intros He Hv.
  - destruct (single_update_completes 48 Single.FSubDivision v d Hi) as [d' Hd'];
      [destruct s; exact He|discriminate|].
    pose proof (single_settle_throw _ _ _ _ Hd') as Hr.
    unfold Single.dispatch, Single.updateField. change renderLimit with (S (S 48)).
    fold d. rewrite single_change_subDivision by assumption. reflexivity.
  - destruct (single_update_completes 48 Single.FGroup v d Hi) as [d' Hd'];
      [destruct s; exact He|discriminate|].
    pose proof (single_settle_throw _ _ _ _ Hd') as Hr.
    unfold Single.dispatch, Single.updateField. change renderLimit with (S (S 48)).
    fold d. rewrite single_change_group by assumption. reflexivity.
Qed.

Lemma single_change_resets_below_witness :
  Single.dispatch (Single.Change Single.FSubDivision "Sub-Division A2")
    (Single.mkState single_selected ∅ []) =
  Done (Single.mkState
          (Single.mkFormData "" "" "" "Division A" "Sub-Division A2" "" "" [50%Z])
          ∅ []).
Proof.
  refine (proj1 (single_change_resets_below (Single.mkState single_selected ∅ [])
                   "Sub-Division A2" _) _ _).
  - apply (single_reachable_intact _ single_selected_reachable).
  - vm_compute. reflexivity.
  - discriminate.
Defined.

(** X7 (wizard, cascade below the division): in the details form, choosing
    another sub-division sets it and, through the chain of one-level
    effects, empties group and family; choosing another group sets it and
    empties family; nothing else changes, the shown errors included. *)
Theorem wizard_change_resets_below :
  ∀ (a : Wizard.App) (v : string),
    wizard_intact (Wizard.formData a) →
    let d := Wizard.formData a in
    (Wizard.enabled (Wizard.Change Wizard.FSubDivision v) a = true →
     v ≠ Wizard.subDivision d →
     Wizard.dispatch (Wizard.Change Wizard.FSubDivision v) a =
     Done (Wizard.mkApp 1
             (Wizard.mkFormData (Wizard.ncoCode d) (Wizard.division d) v "" ""
                (Wizard.description d) (Wizard.confidence d))
             (Wizard.errs a) (Wizard.outputs a))) ∧
    (Wizard.enabled (Wizard.Change Wizard.FGroup v) a = true →
     v ≠ Wizard.group d →
     Wizard.dispatch (Wizard.Change Wizard.FGroup v) a =
     Done (Wizard.mkApp 1
             (Wizard.mkFormData (Wizard.ncoCode d) (Wizard.division d)
                (Wizard.subDivision d) v "" (Wizard.description d)
                (Wizard.confidence d))
             (Wizard.errs a) (Wizard.outputs a))).
Proof.
  intros a v Hi d. pose proof (wizard_intact_chained _ Hi) as [_ Hc2].
  split; intros He Hv.
  - assert (Hstep : (Wizard.currentStep a =? 1)%Z = true).
    { pose proof He as He'. simpl in He'.
      apply andb_true_iff in He' as [He' _].
      apply andb_true_iff in He' as [He' _]. exact He'. }
    destruct (wizard_update_completes 47 Wizard.FSubDivision v d Hi) as [d' Hd'];
      [|discriminate|].
    { destruct a; simpl in *. rewrite Hstep in He. exact He. }
    pose proof (wizard_settle_throw _ _ _ _ Hd') as Hr.
    unfold Wizard.dispatch, Wizard.updateField, Wizard.commit. rewrite Hstep.
    change renderLimit with (S (S (S 47))). fold d.
    rewrite wizard_change_subDivision by assumption.
    apply Z.eqb_eq in Hstep. rewrite Hstep. reflexivity.
  - assert (Hstep : (Wizard.currentStep a =? 1)%Z = true).
    { pose proof He as He'. simpl in He'.
      apply andb_true_iff in He' as [He' _].
      apply andb_true_iff in He' as [He' _]. exact He'. }
    destruct (wizard_update_completes 47 Wizard.FGroup v d Hi) as [d' Hd'];
      [|discriminate|].
    { destruct a; simpl in *. rewrite Hstep in He. exact He. }
    pose proof (wizard_settle_throw _ _ _ _ Hd') as Hr.
    unfold Wizard.dispatch, Wizard.updateField, Wizard.commit. rewrite Hstep.
    change renderLimit with (S (S (S 47))). fold d.
    rewrite wizard_change_group by assumption.
    apply Z.eqb_eq in Hstep. rewrite Hstep. reflexivity.
Qed.

Lemma wizard_change_resets_below_witness :
  Wizard.dispatch (Wizard.Change Wizard.FSubDivision "Sub-Division A2")
    (Wizard.mkApp 1 wizard_selected ∅ []) =
  Done (Wizard.mkApp 1
          (Wizard.mkFormData "" "Division A" "Sub-Division A2" "" "" "" [75%Z])
          ∅ []).
Proof.
  refine (proj1 (wizard_change_resets_below (Wizard.mkApp 1 wizard_selected ∅ [])
                   "Sub-Division A2" _) _ _).
  - apply (wizard_reachable_intact _ wizard_selected_reachable).
  - vm_compute. reflexivity.
  - discriminate.
Defined.

(** ** The error map while the user edits *)

Lemma validateForm_messages data :
  messages_nonempty (errors (Single.validateForm data)).
Proof.
  intros k m. unfold Single.validateForm, result_of. cbn [errors].
  rewrite !lookup_flag, lookup_empty.
  repeat match goal with
         | |- context [if ?c then _ else _] => destruct c
         end; intros [= <-]; discriminate.
Qed.

Lemma clearError_messages field errs :
  messages_nonempty errs → messages_nonempty (Single.clearError field errs).
Proof.
  intros H k m. unfold Single.clearError.
  destruct (errs !! field) as [m'|]; [|apply H].
  destruct (falsy m'); [apply H|].
  intros Hk. apply lookup_delete_Some in Hk as [_ Hk]. by apply (H k).
Qed.

Lemma clearError_delete field errs :
  messages_nonempty errs → Single.clearError field errs = delete field errs.
Proof.
  intros H. unfold Single.clearError.
  destruct (errs !! field) as [m|] eqn:E.
  - apply H, falsy_false in E. rewrite E. reflexivity.
  - symmetry. by apply delete_id.
Qed.

Lemma single_dispatch_errs e s s' :
  Single.dispatch e s = Done s' →
  Single.errs s' =
  match e with
  | Single.Change f _ => Single.clearError (Single.field_name f) (Single.errs s)
  | Single.Slide _ => Single.clearError "confidenceScore" (Single.errs s)
  | Single.Submit =>
      if isValid (Single.validateForm (Single.formData s)) then ∅
      else errors (Single.validateForm (Single.formData s))
  end.
Proof.
  destruct e as [f v|v|]; cbn [Single.dispatch].
  - unfold Single.updateField. destruct (Single.settle _ _ _); [|discriminate..].
    intros [= <-]. reflexivity.
  - unfold Single.updateConfidenceScore.
    destruct (Single.settle _ _ _); [|discriminate..].
    intros [= <-]. reflexivity.
  - intros [= <-]. unfold Single.handleSubmit. destruct (isValid _); reflexivity.
Qed.

Lemma single_reachable_messages s :
  Single.reachable s → messages_nonempty (Single.errs s).
Proof.
  induction 1 as [s Hm|s e s' _ IH He Hd].
  - rewrite single_mount_state in Hm. injection Hm as <-.
    intros k m. simpl. rewrite lookup_empty. discriminate.
  - rewrite (single_dispatch_errs _ _ _ Hd). destruct e as [f v|v|].
    + by apply clearError_messages.
    + by apply clearError_messages.
    + destruct (isValid _); [|apply validateForm_messages].
      intros k m. rewrite lookup_empty. discriminate.
Qed.

Lemma wizard_commit_shape a d' outs a' :
  Wizard.commit a d' outs = Done a' →
  Wizard.currentStep a' = Wizard.currentStep a ∧
  Wizard.errs a' = Wizard.errs a ∧
  Wizard.outputs a' = outs ∧
  ((Wizard.currentStep a =? 1)%Z = false → Wizard.formData a' = d').
Proof.
  unfold Wizard.commit. destruct (Wizard.currentStep a =? 1)%Z.
  - destruct (Wizard.settle _ _ _); [|discriminate..].
    intros [= <-]. simpl. repeat split; discriminate.
  - intros [= <-]. simpl. repeat split; reflexivity.
Qed.

(** X8 (errors while editing): on the single page an edit of a field, with
    whatever cascade it triggers, removes that field's entry from the
    error map and leaves every other entry as it was, whether or not the
    new value is valid; in the wizard an edit leaves the whole error map as
    it was. *)
Theorem edit_and_error_map :
  (∀ s f v s', Single.reachable s →
     Single.dispatch (Single.Change f v) s = Done s' →
     Single.errs s' = delete (Single.field_name f) (Single.errs s)) ∧
  (∀ a f v a',
     Wizard.dispatch (Wizard.Change f v) a = Done a' →
     Wizard.errs a' = Wizard.errs a).
Proof.
  split.
  - intros s f v s' Hr Hd. rewrite (single_dispatch_errs _ _ _ Hd).
    apply clearError_delete, single_reachable_messages, Hr.
  - intros a f v a' Hd. simpl in Hd. unfold Wizard.updateField in Hd.
    by apply wizard_commit_shape in Hd as (_ & ? & _).
Qed.

Lemma edit_and_error_map_witness :
  Single.clearError "title" (Single.errs single_rejected) =
  delete "title" (Single.errs single_rejected).
Proof.
  refine (proj1 edit_and_error_map single_rejected Single.FTitle "Driver"
            (Single.mkState
               (Single.set_field Single.FTitle "Driver" Single.initialFormData)
               (Single.clearError "title" (Single.errs single_rejected)) [])
            _ eq_refl).
  apply (single_session_reachable [Single.Submit] single_mounted);
    [exact single_mounted_reachable|vm_compute; reflexivity].
Defined.

(** ** Only complete, valid records are ever submitted *)

Lemma flag_empty c k m (e : gmap string string) :
  flag c k m e = ∅ ↔ c = false ∧ e = ∅.
Proof.
  unfold flag. destruct c.
  - split; [intros H; by apply insert_non_empty in H|intros [? _]; discriminate].
  - split; [auto|intros [_ ?]; done].
Qed.

Lemma validateForm_valid data :
  isValid (Single.validateForm data) = true ↔
  Single.ncoCode data ≠ "" ∧ Single.title data ≠ "" ∧
  (Single.description data ≠ "" ∧
   (10 ≤ String.length (Single.description data))%nat) ∧
  Single.division data ≠ "" ∧ Single.subDivision data ≠ "" ∧
  Single.group data ≠ "" ∧ Single.family data ≠ "".
Proof.
  unfold Single.validateForm. rewrite result_of_valid, !flag_empty.
  rewrite <- description_flag_spec, <- !falsy_false. tauto.
Qed.

Lemma intact_path d s g f :
  Taxonomy.intact d s g f → f ≠ "" → is_path d s g f.
Proof. intros (_ & _ & [?|H]) Hf; [done|exact H]. Qed.

Lemma single_dispatch_outputs e s s' :
  Single.dispatch e s = Done s' →
  Single.outputs s' =
  match e with
  | Single.Submit =>
      if isValid (Single.validateForm (Single.formData s)) then
        (Single.outputs s ++
         [Single.ConsoleLog "Form submitted:" (Single.formData s);
          Single.Alert "NCO entry saved successfully!"])%list
      else Single.outputs s
  | _ => Single.outputs s
  end.
Proof.
  destruct e as [f v|v|]; cbn [Single.dispatch].
  - unfold Single.updateField. destruct (Single.settle _ _ _); [|discriminate..].
    intros [= <-]. reflexivity.
  - unfold Single.updateConfidenceScore.
    destruct (Single.settle _ _ _); [|discriminate..].
    intros [= <-]. reflexivity.
  - intros [= <-]. unfold Single.handleSubmit. destruct (isValid _); reflexivity.
Qed.

Lemma single_reachable_logged s :
  Single.reachable s → Forall single_logged_ok (Single.outputs s).
Proof.
  induction 1 as [s Hm|s e s' Hr IH He Hd].
  - rewrite single_mount_state in Hm. injection Hm as <-. constructor.
  - rewrite (single_dispatch_outputs _ _ _ Hd). destruct e as [f v|v|]; try exact IH.
    destruct (isValid _) eqn:Hv; [|exact IH].
    apply Forall_app. split; [exact IH|].
    repeat constructor; [exact Hv|].
    apply intact_path; [exact (single_reachable_intact _ Hr)|].
    apply validateForm_valid in Hv. tauto.
Qed.

(** X9 (single page, submissions): whatever the single page has logged as
    submitted, in any state it can reach, passed its validator and is a
    real path of the table: the division is a key, the sub-division a key
    under it, the group a key under that, the family a member of the list
    there. *)
Theorem single_submitted_records_are_valid_paths :
  ∀ (s : Single.State) (label : string) (d : Single.FormData),
    Single.reachable s →
    Single.ConsoleLog label d ∈ Single.outputs s →
    isValid (Single.validateForm d) = true ∧
    is_path (Single.division d) (Single.subDivision d) (Single.group d)
      (Single.family d).
Proof.
  intros s label d Hr Hin.
  pose proof (single_reachable_logged _ Hr) as HF.
  rewrite Forall_forall in HF. exact (HF _ Hin).
Qed.

Lemma single_submitted_reachable : Single.reachable single_submitted.
Proof.
  apply (single_session_reachable fill_and_submit_single single_mounted);
    [exact single_mounted_reachable|vm_compute; reflexivity].
Qed.

Lemma single_submitted_records_are_valid_paths_witness :
  isValid (Single.validateForm single_filled) = true ∧
  is_path "Division A" "Sub-Division A1" "Group A1-1" "Family A1-1-1".
Proof.
  apply (single_submitted_records_are_valid_paths single_submitted
           "Form submitted:" single_filled single_submitted_reachable).
  apply list_elem_of_here.
Defined.

Lemma validateNcoDetails_ignores d v c :
  Wizard.validateNcoDetails (Wizard.set_field Wizard.FDescription v d) =
    Wizard.validateNcoDetails d ∧
  Wizard.validateNcoDetails (Wizard.set_confidence c d) = Wizard.validateNcoDetails d.
Proof. split; reflexivity. Qed.

Lemma wizard_complete_description d v :
  wizard_complete d → wizard_complete (Wizard.set_field Wizard.FDescription v d).
Proof. intros H. exact H. Qed.

Lemma wizard_complete_confidence d c :
  wizard_complete d → wizard_complete (Wizard.set_confidence c d).
Proof. intros H. exact H. Qed.

Lemma wizard_step_of_enabled e a :
  Wizard.enabled e a = true →
  match e with
  | Wizard.Change Wizard.FDescription _ | Wizard.Slide _
  | Wizard.Back | Wizard.SubmitReview => (Wizard.currentStep a =? 1)%Z = false
  | Wizard.Change _ _ | Wizard.Next => (Wizard.currentStep a =? 1)%Z = true
  | Wizard.Settled _ => True
  end.
Proof.
  destruct e as [f v|v| | | |o]; simpl; try done.
  - destruct f; simpl; destruct (Wizard.currentStep a =? 1)%Z; simpl; done.
  - destruct (Wizard.currentStep a =? 1)%Z; simpl; done.
  - destruct (Wizard.currentStep a =? 1)%Z; simpl; done.
  - destruct (Wizard.currentStep a =? 1)%Z; simpl; done.
Qed.

Lemma wizard_dispatch_inv e a a' :
  wizard_inv a →
  Wizard.enabled e a = true →
  Wizard.dispatch e a = Done a' →
  wizard_inv a'.
Proof.
  intros (Hi & Hstep & Hlog) He Hd.
  split; [exact (wizard_dispatch_intact _ _ _ Hi He Hd)|].
  pose proof (wizard_step_of_enabled _ _ He) as Hs.
  assert (Hrev : (Wizard.currentStep a =? 1)%Z = false →
                 Wizard.currentStep a = 2%Z ∧ wizard_complete (Wizard.formData a)).
  { intros Hn. destruct Hstep as [H1|H2]; [|exact H2].
    rewrite H1 in Hn. discriminate. }
  destruct e as [f v|v| | | |o]; cbn [Wizard.dispatch] in Hd.
  - unfold Wizard.updateField in Hd.
    apply wizard_commit_shape in Hd as (Hst & _ & Hout & Hfd).
    rewrite Hst, Hout. split; [|exact Hlog].
    destruct (Wizard.currentStep a =? 1)%Z eqn:E.
    + left. by apply Z.eqb_eq.
    + right. destruct (Hrev eq_refl) as [H2 Hc]. split; [exact H2|].
      rewrite (Hfd eq_refl). destruct f; try discriminate Hs. exact Hc.
  - unfold Wizard.updateConfidence in Hd.
    apply wizard_commit_shape in Hd as (Hst & _ & Hout & Hfd).
    rewrite Hst, Hout. split; [|exact Hlog].
    right. destruct (Hrev Hs) as [H2 Hc]. split; [exact H2|].
    rewrite (Hfd Hs). exact Hc.
  - injection Hd as <-. unfold Wizard.handleSubmitDetails, Wizard.handleNext.
    destruct (isValid _) eqn:Hv; simpl.
    + split; [|exact Hlog]. right. split; [reflexivity|].
      split; [exact Hv|]. apply intact_path; [exact Hi|].
      apply validateNcoDetails_valid in Hv. tauto.
    + split; [|exact Hlog]. left. by apply Z.eqb_eq.
  - unfold Wizard.handleBack in Hd.
    rewrite wizard_mountDetails in Hd by exact (wizard_intact_render _ Hi).
    injection Hd as <-. simpl. split; [by left|exact Hlog].
  - unfold Wizard.handleSubmitReview, Wizard.handleSubmit in Hd.
    destruct (Hrev Hs) as [H2 Hc].
    destruct (isValid _) eqn:Hv.
    + rewrite wizard_mountDetails in Hd by (by apply wizard_render_subDivision_empty).
      injection Hd as <-. simpl. split; [by left|].
      apply Forall_app. split; [exact Hlog|].
      repeat constructor; [apply Hc|apply Hc|exact Hv].
    + injection Hd as <-. simpl. split; [right; by split|exact Hlog].
  - unfold Wizard.handleSuggestDescription in Hd.
    assert (Htoast : ∀ t, Forall wizard_logged_ok (Wizard.outputs a ++ [t]) ↔
                          wizard_logged_ok t).
    { intros t. rewrite Forall_app, Forall_singleton. tauto. }
    destruct o as [r|]; [destruct (_ && _)|].
    + apply wizard_commit_shape in Hd as (Hst & _ & Hout & Hfd).
      rewrite Hst, Hout. split; [|by apply Htoast].
      destruct (Wizard.currentStep a =? 1)%Z eqn:E.
      * left. by apply Z.eqb_eq.
      * right. destruct (Hrev eq_refl) as [H2 Hc]. split; [exact H2|].
        rewrite (Hfd eq_refl). exact Hc.
    + injection Hd as <-. simpl. split; [exact Hstep|by apply Htoast].
    + injection Hd as <-. simpl. split; [exact Hstep|by apply Htoast].
Qed.

Lemma wizard_reachable_inv a : Wizard.reachable a → wizard_inv a.
Proof.
  induction 1 as [a Hm|a e a' _ IH He Hd].
  - rewrite wizard_mount_state in Hm. injection Hm as <-.
    split; [apply intact_cleared|]. split; [by left|constructor].
  - eapply wizard_dispatch_inv; eassumption.
Qed.

(** X10 (wizard, Review step): in every state the wizard can reach the step
    is Details or Review, and whenever it is Review the record passes
    details validation and its four levels are a real path of the table. *)
Theorem wizard_review_step_holds_complete_record :
  ∀ a : Wizard.App,
    Wizard.reachable a →
    (Wizard.currentStep a = 1%Z ∨ Wizard.currentStep a = 2%Z) ∧
    (Wizard.currentStep a = 2%Z →
     isValid (Wizard.validateNcoDetails (Wizard.formData a)) = true ∧
     is_path (Wizard.division (Wizard.formData a))
       (Wizard.subDivision (Wizard.formData a))
       (Wizard.group (Wizard.formData a)) (Wizard.family (Wizard.formData a))).
Proof.
  intros a Hr. destruct (wizard_reachable_inv _ Hr) as (_ & Hstep & _).
  split.
  - destruct Hstep as [?|[? _]]; auto.
  - intros H2. destruct Hstep as [H1|[_ Hc]]; [congruence|exact Hc].
Qed.

Lemma wizard_review_step_holds_complete_record_witness :
  isValid (Wizard.validateNcoDetails (Wizard.formData wizard_reviewing)) = true ∧
  is_path "Division A" "Sub-Division A1" "Group A1-1" "Family A1-1-1".
Proof.
  exact (proj2 (wizard_review_step_holds_complete_record wizard_reviewing
                  wizard_reviewing_reachable) eq_refl).
Defined.

(** X11 (wizard, submissions): whatever the wizard has logged as final data,
    in any state it can reach, passed details validation and review
    validation and is a real path of the table. *)
Theorem wizard_submitted_records_are_valid_paths :
  ∀ (a : Wizard.App) (label : string) (d : Wizard.FormData),
    Wizard.reachable a →
    Wizard.ConsoleLog label d ∈ Wizard.outputs a →
    isValid (Wizard.validateNcoDetails d) = true ∧
    isValid (Wizard.validateNcoReview d) = true ∧
    is_path (Wizard.division d) (Wizard.subDivision d) (Wizard.group d)
      (Wizard.family d).
Proof.
  intros a label d Hr Hin.
  destruct (wizard_reachable_inv _ Hr) as (_ & _ & HF).
  rewrite Forall_forall in HF. destruct (HF _ Hin) as [[? ?] ?]. auto.
Qed.

Lemma wizard_submitted_reachable : Wizard.reachable wizard_submitted.
Proof.
  apply (wizard_session_reachable
           [Wizard.Change Wizard.FDescription "Drives a taxi."; Wizard.SubmitReview]
           wizard_reviewing);
    [exact wizard_reviewing_reachable|vm_compute; reflexivity].
Qed.

Lemma wizard_submitted_records_are_valid_paths_witness :
  isValid (Wizard.validateNcoDetails (Wizard.formData wizard_described)) = true ∧
  isValid (Wizard.validateNcoReview (Wizard.formData wizard_described)) = true ∧
  is_path "Division A" "Sub-Division A1" "Group A1-1" "Family A1-1-1".
Proof.
  apply (wizard_submitted_records_are_valid_paths wizard_submitted
           "Final Data:" (Wizard.formData wizard_described)
           wizard_submitted_reachable).
  apply list_elem_of_here.
Defined.

(** ** The suggestion always makes the record submittable *)

Lemma suggestion_text_long division subDivision group family :
  (10 ≤ String.length
          (Wizard.result_description
             (Wizard.getNcoDescriptionSuggestion division subDivision group family)))%nat.
Proof. simpl. lia. Qed.

(** X12 (suggestion then submit): in the Review step, once the repository's
    suggestion service has answered, for whatever selection it was asked
    about, the description is its text, review validation passes, and the
    submit that follows goes through and brings the wizard back to the
    Details step with the default record. *)
Theorem suggestion_makes_review_pass :
  ∀ (a : Wizard.App) (division subDivision group family : string),
    Wizard.currentStep a = 2%Z →
    let result :=
      Wizard.getNcoDescriptionSuggestion division subDivision group family in
    ∃ a1,
      Wizard.dispatch (Wizard.Settled (Wizard.Resolved result)) a = Done a1 ∧
      Wizard.description (Wizard.formData a1) = Wizard.result_description result ∧
      isValid (Wizard.validateNcoReview (Wizard.formData a1)) = true ∧
      ∃ a2,
        Wizard.dispatch Wizard.SubmitReview a1 = Done a2 ∧
        Wizard.currentStep a2 = 1%Z ∧
        Wizard.formData a2 = Wizard.defaultFormData.
Proof.
  intros a dv sd g f Hstep result.
  assert (Hv : ∀ d, Wizard.description d = Wizard.result_description result →
                    isValid (Wizard.validateNcoReview d) = true).
  { intros d Hd. apply validateNcoReview_valid. rewrite Hd. split.
    - discriminate.
    - apply suggestion_text_long. }
  eexists. split; [|split; [|split]].
  - unfold Wizard.dispatch, Wizard.handleSuggestDescription.
    change (Wizard.success result && negb (falsy (Wizard.result_description result)))
      with true. cbn iota.
    unfold Wizard.commit. rewrite Hstep. reflexivity.
  - reflexivity.
  - apply Hv. reflexivity.
  - unfold Wizard.dispatch, Wizard.handleSubmitReview, Wizard.handleSubmit.
    rewrite Hv by reflexivity.
    rewrite wizard_mountDetails by (by apply wizard_render_subDivision_empty).
    eexists. split; [reflexivity|]. split; reflexivity.
Qed.

Lemma suggestion_makes_review_pass_witness :
  ∃ a1,
    Wizard.dispatch
      (Wizard.Settled (Wizard.Resolved
         (Wizard.getNcoDescriptionSuggestion "Division A" "Sub-Division A1"
            "Group A1-1" "Family A1-1-1"))) wizard_reviewing = Done a1 ∧
    isValid (Wizard.validateNcoReview (Wizard.formData a1)) = true.
Proof.
  destruct (suggestion_makes_review_pass wizard_reviewing "Division A"
              "Sub-Division A1" "Group A1-1" "Family A1-1-1" eq_refl)
    as (a1 & H1 & _ & H2 & _).
  exists a1. split; [exact H1|exact H2].
Defined.

(** ** Every path of the table can be entered *)

(** X13 (wizard, entering a path): for any non-empty code and any path of
    the table, selecting division, sub-division, group and family from the
    top down is possible through the enabled controls, unmounts nothing,
    and the advance action then reaches the Review step with exactly that
    record. *)
Theorem wizard_any_path_can_be_entered :
  ∀ code d s g f : string,
    code ≠ "" →
    is_path d s g f →
    wizard_session (enter_path_wizard code d s g f) wizard_mounted =
    Some (Done (Wizard.mkApp 2 (Wizard.mkFormData code d s g f "" [75%Z]) ∅ [])).
Proof.
  intros code d s g f Hcode (dd & sd & fl & Hd & Hs & Hg & Hf).
  destruct code as [|c code']; [done|].
  apply ncoData_cases in Hd as [[-> Hd]|[-> Hd]];
    vm_compute in Hd; injection Hd as <-;
    unfold Taxonomy.get in Hs;
    repeat case_bool_decide; try discriminate Hs; subst s;
    injection Hs as <-;
    unfold Taxonomy.get in Hg;
    repeat case_bool_decide; try discriminate Hg; subst g;
    injection Hg as <-;
    repeat (apply elem_of_cons in Hf as [->|Hf]);
    try (by apply elem_of_nil in Hf);
    vm_compute; reflexivity.
Qed.

Lemma wizard_any_path_can_be_entered_witness :
  wizard_session
    (enter_path_wizard "2222" "Division B" "Sub-Division B1" "Group B1-2"
       "Family B1-2-1") wizard_mounted =
  Some (Done (Wizard.mkApp 2
                (Wizard.mkFormData "2222" "Division B" "Sub-Division B1"
                   "Group B1-2" "Family B1-2-1" "" [75%Z]) ∅ [])).
Proof.
  apply wizard_any_path_can_be_entered; [discriminate|].
  exists [("Sub-Division B1",
            [("Group B1-1", ["Family B1-1-1"; "Family B1-1-2"]);
             ("Group B1-2", ["Family B1-2-1"])])],
         [("Group B1-1", ["Family B1-1-1"; "Family B1-1-2"]);
          ("Group B1-2", ["Family B1-2-1"])],
         ["Family B1-2-1"].
  repeat split; try reflexivity. apply list_elem_of_here.
Defined.

(** ** A division switch that does not unmount the page *)

(** X4 (single page, division switch that completes): from an intact
    record, choosing another division while no group is selected, or
    clearing the division, sets the division and empties sub-division,
    group and family; nothing else in the record changes and only the
    division's error is dropped. *)
Theorem single_division_switch_resets :
  ∀ (s : Single.State) (v : string),
    single_intact (Single.formData s) →
    Single.enabled (Single.Change Single.FDivision v) s = true →
    v ≠ Single.division (Single.formData s) →
    v = "" ∨ Single.subDivision (Single.formData s) = "" ∨
      Single.group (Single.formData s) = "" →
    let d := Single.formData s in
    Single.dispatch (Single.Change Single.FDivision v) s =
    Done (Single.mkState
            (Single.mkFormData (Single.ncoCode d) (Single.title d)
               (Single.description d) v "" "" "" (Single.confidenceScore d))
            (Single.clearError "division" (Single.errs s)) (Single.outputs s)).
Proof.
  intros s v Hi He Hne Hor d. simpl in He. apply single_offered_division in He.
  destruct (division_switch_render _ _ _ _ v Hi He Hne)
    as [(_ & H1 & H2 & H3)|(Hr & _)].
  { destruct Hor as [?|[?|?]]; done. }
  unfold Single.dispatch, Single.updateField. change renderLimit with (S (S 48)).
  fold d. rewrite single_change_division by assumption. reflexivity.
Qed.

Lemma single_division_switch_resets_witness :
  Single.dispatch (Single.Change Single.FDivision "")
    (Single.mkState single_selected ∅ []) =
  Done (Single.mkState (Single.mkFormData "" "" "" "" "" "" "" [50%Z]) ∅ []).
Proof.
  refine (single_division_switch_resets (Single.mkState single_selected ∅ []) ""
            _ _ _ _).
  - apply (single_reachable_intact _ single_selected_reachable).
  - vm_compute. reflexivity.
  - discriminate.
  - left. reflexivity.
Defined.

(** X5 (wizard, division switch that completes): the same in the details
    form, where the three levels are emptied one effect after the other;
    the shown errors stay as they are. *)
Theorem wizard_division_switch_resets :
  ∀ (a : Wizard.App) (v : string),
    wizard_intact (Wizard.formData a) →
    Wizard.enabled (Wizard.Change Wizard.FDivision v) a = true →
    v ≠ Wizard.division (Wizard.formData a) →
    v = "" ∨ Wizard.subDivision (Wizard.formData a) = "" ∨
      Wizard.group (Wizard.formData a) = "" →
    let d := Wizard.formData a in
    Wizard.dispatch (Wizard.Change Wizard.FDivision v) a =
    Done (Wizard.mkApp 1
            (Wizard.mkFormData (Wizard.ncoCode d) v "" "" ""
               (Wizard.description d) (Wizard.confidence d))
            (Wizard.errs a) (Wizard.outputs a)).
Proof.
  intros a v Hi He Hne Hor d. simpl in He. apply andb_true_iff in He as [Hstep He].
  apply wizard_offered_division in He.
  destruct (division_switch_render _ _ _ _ v Hi He Hne)
    as [(_ & H1 & H2 & H3)|(Hr & _)].
  { destruct Hor as [?|[?|?]]; done. }
  unfold Wizard.dispatch, Wizard.updateField, Wizard.commit. rewrite Hstep.
  change renderLimit with (S (S (S 47))). fold d.
  rewrite wizard_change_division
    by (try assumption; by apply wizard_intact_chained).
  apply Z.eqb_eq in Hstep. rewrite Hstep. reflexivity.
Qed.

Lemma wizard_division_switch_resets_witness :
  Wizard.dispatch (Wizard.Change Wizard.FDivision "")
    (Wizard.mkApp 1 wizard_selected ∅ []) =
  Done (Wizard.mkApp 1 (Wizard.mkFormData "" "" "" "" "" "" [75%Z]) ∅ []).
Proof.
  refine (wizard_division_switch_resets (Wizard.mkApp 1 wizard_selected ∅ []) ""
            _ _ _ _).
  - apply (wizard_reachable_intact _ wizard_selected_reachable).
  - vm_compute. reflexivity.
  - discriminate.
  - left. reflexivity.
Defined.

(** ** The shell: navigation between the two pages *)

Lemma app_show p : App.show p = Done (fresh_view p).
Proof. destruct p; vm_compute; reflexivity. Qed.


Lemma app_dispatch_page_reachable e v v' :
  page_reachable v →
  App.enabled e v = true →
  App.dispatch e v = Done v' →
  page_reachable v'.
Proof.
  intros Hr He Hd. destruct e as [p|e|e].
  - simpl in Hd. unfold App.setCurrentPage in Hd.
    destruct (App.Page_eqb p (App.currentPage v)); [by injection Hd as <-|].
    rewrite app_show in Hd. injection Hd as <-.
    destruct p; [exact wizard_mounted_reachable|exact single_mounted_reachable].
  - destruct v as [a|s]; [|discriminate He]. simpl in *.
    destruct (Wizard.dispatch e a) as [a'| |] eqn:E; [|discriminate..].
    injection Hd as <-. simpl. eapply Wizard.reach_step; eassumption.
  - destruct v as [a|s]; [discriminate He|]. simpl in *.
    destruct (Single.dispatch e s) as [s'| |] eqn:E; [|discriminate..].
    injection Hd as <-. simpl. eapply Single.reach_step; eassumption.
Qed.

(** X15 (shell and pages): whatever page the shell shows after any sequence
    of navigation and page events is in a state that page reaches on its
    own from its mount, so everything that holds of the pages' reachable
    states holds inside the shell; in particular the shown record is
    referentially intact. *)
Theorem shell_shows_reachable_page :
  ∀ v : App.View,
    App.reachable v →
    page_reachable v ∧
    match v with
    | App.Admin a => wizard_intact (Wizard.formData a)
    | App.Output s => single_intact (Single.formData s)
    end.
Proof.
  intros v Hv.
  assert (page_reachable v) as Hp.
  { induction Hv as [v Hm|v e v' _ IH He Hd].
    - unfold App.mount in Hm. rewrite app_show in Hm. injection Hm as <-.
      exact wizard_mounted_reachable.
    - eapply app_dispatch_page_reachable; eassumption. }
  split; [exact Hp|].
  destruct v; [by apply wizard_reachable_intact|by apply single_reachable_intact].
Qed.

Lemma shell_shows_reachable_page_witness :
  page_reachable (App.Output single_mounted) ∧
  single_intact (Single.formData single_mounted).
Proof.
  apply (shell_shows_reachable_page (App.Output single_mounted)).
  apply (App.reach_step (App.Admin wizard_mounted) (App.Navigate App.output)).
  - apply App.reach_mount. vm_compute. reflexivity.
  - reflexivity.
  - vm_compute. reflexivity.
Defined.
